(** * SSM association resource: expand/flatten helpers and lifecycle handlers

    A shallow embedding of [internal/service/ssm/association.go].  Go values
    of type [interface{}] are a tagged union, Go maps are [gmap]s, nilable
    pointers and slices are [option]s, and a run-time panic is an explicit
    result. *)

From Stdlib Require Import ZArith Ascii String List.
From stdpp Require Import gmap strings list fin_maps.

Local Open Scope string_scope.

(** ** Go values *)

(** A dynamically typed Go value ([interface{}]).  A slice keeps the
    difference between [nil] ([None]) and an allocated slice ([Some l]). *)
#[warnings="-register-all"]
Inductive iface : Type :=
| INil
| IString (s : string)
| IBool (b : bool)
| IInt (n : Z)
| ISlice (l : option (list iface))
| IMap (m : gmap string iface).

(** Run-time panics the modelled code can raise. *)
Inductive panic : Type :=
| PanicIndexOutOfRange
| PanicTypeAssertion.

Inductive result (A : Type) : Type :=
| Ok (a : A)
| Panic (p : panic).
Arguments Ok {A} a.
Arguments Panic {A} p.

#[global] Instance result_ret : MRet result := λ A a, Ok a.
#[global] Instance result_bind : MBind result := λ A B k r,
  match r with
  | Ok a => k a
  | Panic p => Panic p
  end.

(** Single-value type assertions [v.(T)]: they panic on a mismatch. *)
Definition assertString (v : iface) : result string :=
  match v with IString s => Ok s | _ => Panic PanicTypeAssertion end.
Definition assertBool (v : iface) : result bool :=
  match v with IBool b => Ok b | _ => Panic PanicTypeAssertion end.
Definition assertInt (v : iface) : result Z :=
  match v with IInt n => Ok n | _ => Panic PanicTypeAssertion end.
Definition assertSlice (v : iface) : result (option (list iface)) :=
  match v with ISlice l => Ok l | _ => Panic PanicTypeAssertion end.
Definition assertMap (v : iface) : result (gmap string iface) :=
  match v with IMap m => Ok m | _ => Panic PanicTypeAssertion end.

(** Indexing a map of [interface{}] values: a missing key reads as the nil
    interface. *)
Definition mapIndex (m : gmap string iface) (k : string) : iface :=
  default INil (m !! k).

(** [aws.String], [aws.Bool] and [aws.StringValue]. *)
Definition aws_String (s : string) : option string := Some s.
Definition aws_Bool (b : bool) : option bool := Some b.
Definition aws_StringValue (p : option string) : string := default "" p.

(** ** SDK structures *)

Record S3OutputLocation : Type := {
  OutputS3BucketName : option string;
  OutputS3KeyPrefix : option string;
  OutputS3Region : option string;
}.

Record InstanceAssociationOutputLocation : Type := {
  S3Location : option S3OutputLocation;
}.

(** ** Expanders and flatteners *)

(** The body of the [range] loop of [expandDocumentParameters], run over the
    entries in the order the iteration happens to produce them. *)
Definition expandDocumentParameters_loop
    (entries : list (string * iface))
    (docParams : gmap string (list (option string)))
    : result (gmap string (list (option string))) :=
  foldl (λ acc kv,
           docParams ← acc;
           s ← assertString kv.2;
           Ok (<[kv.1 := [aws_String s]]> docParams))
        (Ok docParams) entries.

Definition expandDocumentParameters (params : gmap string iface)
    : result (gmap string (list (option string))) :=
  expandDocumentParameters_loop (map_to_list params) ∅.

Definition expandAssociationOutputLocation (config : option (list iface))
    : result (option InstanceAssociationOutputLocation) :=
  match config with
  | None => Ok None
  | Some l =>
    match l !! 0%nat with
    | None => Panic PanicIndexOutOfRange
    | Some first =>
      locationConfig ← assertMap first;
      bucket ← assertString (mapIndex locationConfig "s3_bucket_name");
      prefix ← match locationConfig !! "s3_key_prefix" with
               | Some v => s ← assertString v; Ok (aws_String s)
               | None => Ok None
               end;
      let region :=
        match locationConfig !! "s3_region" with
        | Some (IString v) => if decide (v = "") then None else aws_String v
        | _ => None
        end in
      Ok (Some {| S3Location := Some {|
                    OutputS3BucketName := aws_String bucket;
                    OutputS3KeyPrefix := prefix;
                    OutputS3Region := region |} |})
    end
  end.

Definition flattenAssociationOutputLocation
    (location : option InstanceAssociationOutputLocation)
    : option (list (gmap string iface)) :=
  match location with
  | None => None
  | Some loc =>
    match S3Location loc with
    | None => None
    | Some s3 =>
      let item : gmap string iface :=
        <["s3_bucket_name" := IString (aws_StringValue (OutputS3BucketName s3))]> ∅ in
      let item :=
        match OutputS3KeyPrefix s3 with
        | Some _ => <["s3_key_prefix" := IString (aws_StringValue (OutputS3KeyPrefix s3))]> item
        | None => item
        end in
      let item :=
        match OutputS3Region s3 with
        | Some _ => <["s3_region" := IString (aws_StringValue (OutputS3Region s3))]> item
        | None => item
        end in
      Some (([] : list (gmap string iface)) ++ [item])%list
    end
  end.

(** ** Errors and diagnostics *)

(** A Go [error]: its [Error()] text and, when it is an [awserr.Error], its
    [Code()]. *)
Record error : Type := {
  err_Code : option string;
  err_Error : string;
}.

(** [strings.Contains]. *)
Fixpoint strings_Contains (s substr : string) : bool :=
  String.prefix substr s ||
  match s with
  | EmptyString => false
  | String _ s' => strings_Contains s' substr
  end.

(** [tfawserr.ErrCodeContains]: the error is an [awserr.Error] whose code
    contains [code]. *)
Definition tfawserr_ErrCodeContains (err : error) (code : string) : bool :=
  match err_Code err with
  | Some c => strings_Contains c code
  | None => false
  end.

Definition ssm_ErrCodeAssociationDoesNotExist : string := "AssociationDoesNotExist".

Inductive Severity : Type := SeverityError | SeverityWarning.

Record Diagnostic : Type := {
  diag_Severity : Severity;
  diag_Summary : string;
}.

Definition Diagnostics : Type := list Diagnostic.

Definition Diagnostics_HasError (diags : Diagnostics) : bool :=
  existsb (λ dg, match diag_Severity dg with
                 | SeverityError => true
                 | SeverityWarning => false
                 end) diags.

(** Modelled from the spec: [sdkdiag.AppendErrorf] is not among the source
    files; errors bubble to the caller with descriptive context, so it
    appends one error diagnostic whose summary is the formatted message. *)
Definition sdkdiag_AppendErrorf (diags : Diagnostics) (message : string)
    : Diagnostics :=
  (diags ++ [{| diag_Severity := SeverityError; diag_Summary := message |}])%list.

(** ** Resource schema and resource data *)

(** The plugin SDK's [schema.ResourceData] is kept as the flat record of the
    values that are set.  [GetOk] reports a field as present only when it is
    set to a value other than the zero value of its kind, which is how the
    handlers tell an unset field from a configured one. *)

Inductive ValueType : Type :=
| TypeBool | TypeInt | TypeString | TypeList | TypeMap.

(** The top-level [Schema] of [ResourceAssociation]: the type of each field. *)
Definition Schema (key : string) : option ValueType :=
  if decide (key = "arn") then Some TypeString
  else if decide (key = "apply_only_at_cron_interval") then Some TypeBool
  else if decide (key = "association_name") then Some TypeString
  else if decide (key = "association_id") then Some TypeString
  else if decide (key = "instance_id") then Some TypeString
  else if decide (key = "document_version") then Some TypeString
  else if decide (key = "max_concurrency") then Some TypeString
  else if decide (key = "max_errors") then Some TypeString
  else if decide (key = "name") then Some TypeString
  else if decide (key = "parameters") then Some TypeMap
  else if decide (key = "schedule_expression") then Some TypeString
  else if decide (key = "output_location") then Some TypeList
  else if decide (key = "targets") then Some TypeList
  else if decide (key = "compliance_severity") then Some TypeString
  else if decide (key = "automation_target_parameter_name") then Some TypeString
  else if decide (key = "wait_for_success_timeout_seconds") then Some TypeInt
  else None.

(** [ValueType.Zero]. *)
Definition Zero (t : ValueType) : iface :=
  match t with
  | TypeBool => IBool false
  | TypeInt => IInt 0
  | TypeString => IString ""
  | TypeList => ISlice (Some [])
  | TypeMap => IMap ∅
  end.

(** Whether a value is the zero value of its kind: [false], [0], the empty
    string, a list or a map without elements. *)
Definition isZero (v : iface) : bool :=
  match v with
  | INil => true
  | IString s => bool_decide (s = "")
  | IBool b => negb b
  | IInt n => bool_decide (n = 0%Z)
  | ISlice None => true
  | ISlice (Some l) => bool_decide (length l = 0%nat)
  | IMap m => bool_decide (size m = 0%nat)
  end.

Definition hasType (t : ValueType) (v : iface) : bool :=
  match t, v with
  | TypeBool, IBool _ | TypeInt, IInt _ | TypeString, IString _
  | TypeList, ISlice _ | TypeMap, IMap _ => true
  | _, _ => false
  end.

(** The keys of a block of a list field, each with the zero value of its
    type: the blocks of [output_location] and of [targets] in the schema. *)
Definition blockZero (key : string) : gmap string iface :=
  if decide (key = "output_location") then
    <["s3_bucket_name" := IString ""]>
      (<["s3_key_prefix" := IString ""]> (<["s3_region" := IString ""]> ∅))
  else if decide (key = "targets") then
    <["key" := IString ""]> (<["values" := ISlice (Some [])]> ∅)
  else ∅.

(** A block as the resource data hands it over: every key of its schema is
    there, the ones without a value with their zero value. *)
Definition fillBlock (key : string) (elem : iface) : iface :=
  match elem with
  | IMap m => IMap (m ∪ blockZero key)
  | _ => elem
  end.

(** A value as the resource data hands it over: a list is always allocated
    and its blocks are filled; other values are as they are. *)
Definition normalizeValue (key : string) (v : iface) : iface :=
  match v with
  | ISlice l => ISlice (Some (List.map (fillBlock key) (default [] l)))
  | _ => v
  end.

(** [schema.ResourceData]: the values that are set, the identifier and the
    new-resource mark. *)
Record ResourceData : Type := {
  rd_values : gmap string iface;
  rd_id : string;
  rd_isNew : bool;
}.

Definition zeroOf (key : string) : iface :=
  match Schema key with
  | Some t => Zero t
  | None => INil
  end.

(** [d.Get]: the value that is set, else the zero value of the field. *)
Definition Get (d : ResourceData) (key : string) : iface :=
  match rd_values d !! key with
  | Some v => normalizeValue key v
  | None => zeroOf key
  end.

(** [d.GetOk]: the value, and whether it is set to a non-zero value. *)
Definition GetOk (d : ResourceData) (key : string) : iface * bool :=
  match rd_values d !! key with
  | Some v => (normalizeValue key v, negb (isZero (normalizeValue key v)))
  | None => (zeroOf key, false)
  end.

Definition Id (d : ResourceData) : string := rd_id d.

Definition SetId (d : ResourceData) (v : string) : ResourceData :=
  {| rd_values := rd_values d; rd_id := v; rd_isNew := rd_isNew d |}.

Definition IsNewResource (d : ResourceData) : bool := rd_isNew d.

(** [d.Set]: a nil pointer unsets the field; a value of the wrong type for
    the field is refused with an error; a list is kept allocated, with its
    blocks filled. *)
Definition Set_ (d : ResourceData) (key : string) (value : option iface)
    : ResourceData * option error :=
  match value with
  | None =>
    ({| rd_values := delete key (rd_values d); rd_id := rd_id d;
        rd_isNew := rd_isNew d |}, None)
  | Some v =>
    match Schema key with
    | Some t =>
      if hasType t v then
        ({| rd_values := <[key := normalizeValue key v]> (rd_values d);
            rd_id := rd_id d; rd_isNew := rd_isNew d |}, None)
      else
        (d, Some {| err_Code := None;
                    err_Error := key ++ ": invalid value type" |})
    | None =>
      (d, Some {| err_Code := None;
                  err_Error := "Invalid address to set: " ++ key |})
    end
  end.

(** ** Requests, responses and the client *)

Record Target : Type := {
  Key : option string;
  Values : option (list (option string));
}.

Record CreateAssociationInput : Type := {
  cai_ApplyOnlyAtCronInterval : option bool;
  cai_AssociationName : option string;
  cai_AutomationTargetParameterName : option string;
  cai_ComplianceSeverity : option string;
  cai_DocumentVersion : option string;
  cai_InstanceId : option string;
  cai_MaxConcurrency : option string;
  cai_MaxErrors : option string;
  cai_Name : option string;
  cai_OutputLocation : option InstanceAssociationOutputLocation;
  cai_Parameters : option (gmap string (list (option string)));
  cai_ScheduleExpression : option string;
  cai_Targets : option (list Target);
}.

Record UpdateAssociationInput : Type := {
  uai_ApplyOnlyAtCronInterval : option bool;
  uai_AssociationId : option string;
  uai_AssociationName : option string;
  uai_AutomationTargetParameterName : option string;
  uai_ComplianceSeverity : option string;
  uai_DocumentVersion : option string;
  uai_MaxConcurrency : option string;
  uai_MaxErrors : option string;
  uai_OutputLocation : option InstanceAssociationOutputLocation;
  uai_Parameters : option (gmap string (list (option string)));
  uai_ScheduleExpression : option string;
  uai_Targets : option (list Target);
}.

Record DeleteAssociationInput : Type := {
  dai_AssociationId : option string;
}.

Record AssociationDescription : Type := {
  ad_ApplyOnlyAtCronInterval : option bool;
  ad_AssociationId : option string;
  ad_AssociationName : option string;
  ad_AutomationTargetParameterName : option string;
  ad_ComplianceSeverity : option string;
  ad_DocumentVersion : option string;
  ad_InstanceId : option string;
  ad_MaxConcurrency : option string;
  ad_MaxErrors : option string;
  ad_Name : option string;
  ad_OutputLocation : option InstanceAssociationOutputLocation;
  ad_Parameters : option (gmap string (list (option string)));
  ad_ScheduleExpression : option string;
  ad_Targets : option (list Target);
}.

Record CreateAssociationOutput : Type := {
  cao_AssociationDescription : option AssociationDescription;
}.

(** The SSM connection: what each remote operation answers. *)
Record SSM : Type := {
  CreateAssociationWithContext :
    CreateAssociationInput → error + CreateAssociationOutput;
  UpdateAssociationWithContext : UpdateAssociationInput → option error;
  DeleteAssociationWithContext : DeleteAssociationInput → option error;
}.

(** [conns.AWSClient]. *)
Record AWSClient : Type := {
  Partition : string;
  Region : string;
  AccountID : string;
  SSMConn : SSM;
}.

(** [arn.ARN] and its [String] method. *)
Record ARN : Type := {
  arn_Partition : string;
  arn_Service : string;
  arn_Region : string;
  arn_AccountID : string;
  arn_Resource : string;
}.

Definition ARN_String (a : ARN) : string :=
  "arn:" ++ arn_Partition a ++ ":" ++ arn_Service a ++ ":" ++ arn_Region a
  ++ ":" ++ arn_AccountID a ++ ":" ++ arn_Resource a.

(** [time.ParseDuration(fmt.Sprintf("%ds", n))] with the error dropped: the
    duration in nanoseconds, or zero when the value does not fit. *)
Definition secondsDuration (n : Z) : Z :=
  if decide (Z.abs n ≤ 2 ^ 63 `div` 1000000000)%Z then (n * 1000000000)%Z
  else 0%Z.

(** ** Handlers: resource data, remote calls and panics *)

(** The remote operations a handler issues, in order. *)
Inductive Call : Type :=
| CallCreateAssociation (input : CreateAssociationInput)
| CallUpdateAssociation (input : UpdateAssociationInput)
| CallDeleteAssociation (input : DeleteAssociationInput)
| CallFindAssociationById (id : string)
| CallWaitAssociationSuccess (id : string) (timeout : Z).

Definition isStatusPoll (c : Call) : bool :=
  match c with
  | CallWaitAssociationSuccess _ _ => true
  | _ => false
  end.

(** What a handler works on: the resource data it mutates and the calls it
    has made so far. *)
Record St : Type := {
  st_d : ResourceData;
  st_calls : list Call;
}.

(** A handler step: it may panic, and it leaves a state behind either way. *)
Definition M (A : Type) : Type := St → result A * St.

#[global] Instance M_ret : MRet M := λ A a st, (Ok a, st).
#[global] Instance M_bind : MBind M := λ A B k m st,
  match m st with
  | (Ok a, st') => k a st'
  | (Panic p, st') => (Panic p, st')
  end.

Definition liftResult {A} (r : result A) : M A := λ st, (r, st).

Definition getD : M ResourceData := λ st, (Ok (st_d st), st).

Definition modifyD (f : ResourceData → ResourceData) : M unit := λ st,
  (Ok tt, {| st_d := f (st_d st); st_calls := st_calls st |}).

Definition d_Set (key : string) (value : option iface) : M (option error) :=
  λ st, (Ok (Set_ (st_d st) key value).2,
         {| st_d := (Set_ (st_d st) key value).1; st_calls := st_calls st |}).

(** Issue a remote call and receive its answer. *)
Definition remote {A} (c : Call) (answer : A) : M A := λ st,
  (Ok answer, {| st_d := st_d st; st_calls := (st_calls st ++ [c])%list |}).

Definition start (d : ResourceData) : St := {| st_d := d; st_calls := [] |}.

(** [if v, ok := d.GetOk(key); ok { field = set(v) }]: the field stays nil
    unless the key is set to a non-zero value. *)
Definition ifGetOk {A} (d : ResourceData) (key : string)
    (set : iface → result (option A)) : result (option A) :=
  let '(v, ok) := GetOk d key in
  if ok then set v else Ok None.

Definition setString (v : iface) : result (option string) :=
  s ← assertString v; Ok (aws_String s).

Definition setBool (v : iface) : result (option bool) :=
  b ← assertBool v; Ok (aws_Bool b).

(** A [[]map[string]interface{}] seen as a [[]interface{}], and as the value
    handed to [d.Set]. *)
Definition asConfig (l : option (list (gmap string iface)))
    : option (list iface) :=
  option_map (List.map IMap) l.

Definition asInterfaceSlice (l : option (list (gmap string iface))) : iface :=
  ISlice (asConfig l).

Section handlers.

(** Functions of the package and of [tfresource] that live in other files. *)
Variable tfresource_NotFound : error → bool.
Variable FindAssociationById : SSM → string → error + AssociationDescription.
Variable waitAssociationSuccess :
  SSM → string → Z → error + AssociationDescription.
Variable expandTargets : option (list iface) → result (option (list Target)).
Variable flattenParameters :
  option (gmap string (list (option string))) → iface.
Variable flattenTargets : option (list Target) → iface.

(** The request built by [resourceAssociationCreate] (lines 169-219). *)
Definition resourceAssociationCreate_input (d : ResourceData)
    : result CreateAssociationInput :=
  name ← assertString (Get d "name");
  applyOnlyAtCronInterval ← ifGetOk d "apply_only_at_cron_interval" setBool;
  associationName ← ifGetOk d "association_name" setString;
  instanceId ← ifGetOk d "instance_id" setString;
  documentVersion ← ifGetOk d "document_version" setString;
  scheduleExpression ← ifGetOk d "schedule_expression" setString;
  parameters ← ifGetOk d "parameters"
    (λ v, m ← assertMap v; p ← expandDocumentParameters m; Ok (Some p));
  targets ← ifGetOk d "targets" (λ v, l ← assertSlice v; expandTargets l);
  outputLocation ← ifGetOk d "output_location"
    (λ v, l ← assertSlice v; expandAssociationOutputLocation l);
  complianceSeverity ← ifGetOk d "compliance_severity" setString;
  maxConcurrency ← ifGetOk d "max_concurrency" setString;
  maxErrors ← ifGetOk d "max_errors" setString;
  automationTargetParameterName ←
    ifGetOk d "automation_target_parameter_name" setString;
  Ok {| cai_ApplyOnlyAtCronInterval := applyOnlyAtCronInterval;
        cai_AssociationName := associationName;
        cai_AutomationTargetParameterName := automationTargetParameterName;
        cai_ComplianceSeverity := complianceSeverity;
        cai_DocumentVersion := documentVersion;
        cai_InstanceId := instanceId;
        cai_MaxConcurrency := maxConcurrency;
        cai_MaxErrors := maxErrors;
        cai_Name := aws_String name;
        cai_OutputLocation := outputLocation;
        cai_Parameters := parameters;
        cai_ScheduleExpression := scheduleExpression;
        cai_Targets := targets |}.

(** The request built by [resourceAssociationUpdate] (lines 300-347). *)
Definition resourceAssociationUpdate_input (d : ResourceData)
    : result UpdateAssociationInput :=
  applyOnlyAtCronInterval ← ifGetOk d "apply_only_at_cron_interval" setBool;
  associationName ← ifGetOk d "association_name" setString;
  documentVersion ← ifGetOk d "document_version" setString;
  scheduleExpression ← ifGetOk d "schedule_expression" setString;
  parameters ← ifGetOk d "parameters"
    (λ v, m ← assertMap v; p ← expandDocumentParameters m; Ok (Some p));
  targets ← ifGetOk d "targets"
    (λ _, l ← assertSlice (Get d "targets"); expandTargets l);
  outputLocation ← ifGetOk d "output_location"
    (λ v, l ← assertSlice v; expandAssociationOutputLocation l);
  complianceSeverity ← ifGetOk d "compliance_severity" setString;
  maxConcurrency ← ifGetOk d "max_concurrency" setString;
  maxErrors ← ifGetOk d "max_errors" setString;
  automationTargetParameterName ←
    ifGetOk d "automation_target_parameter_name" setString;
  Ok {| uai_ApplyOnlyAtCronInterval := applyOnlyAtCronInterval;
        uai_AssociationId := aws_String (Id d);
        uai_AssociationName := associationName;
        uai_AutomationTargetParameterName := automationTargetParameterName;
        uai_ComplianceSeverity := complianceSeverity;
        uai_DocumentVersion := documentVersion;
        uai_MaxConcurrency := maxConcurrency;
        uai_MaxErrors := maxErrors;
        uai_OutputLocation := outputLocation;
        uai_Parameters := parameters;
        uai_ScheduleExpression := scheduleExpression;
        uai_Targets := targets |}.

Definition associationARN (meta : AWSClient) (association : AssociationDescription)
    : string :=
  ARN_String {| arn_Partition := Partition meta;
                arn_Service := "ssm";
                arn_Region := Region meta;
                arn_AccountID := AccountID meta;
                arn_Resource :=
                  "association/" ++ aws_StringValue (ad_AssociationId association) |}.

Definition resourceAssociationRead (meta : AWSClient) : M Diagnostics :=
  let diags : Diagnostics := [] in
  let conn := SSMConn meta in
  d ← getD;
  found ← remote (CallFindAssociationById (Id d)) (FindAssociationById conn (Id d));
  match found with
  | inl err =>
    if negb (IsNewResource d) && tfresource_NotFound err then
      modifyD (λ d, SetId d "");;
      mret diags
    else
      mret (sdkdiag_AppendErrorf diags
              ("reading SSM Association (" ++ Id d ++ "): " ++ err_Error err))
  | inr association =>
    let arn := associationARN meta association in
    d_Set "arn" (Some (IString arn));;
    d_Set "apply_only_at_cron_interval"
      (IBool <$> ad_ApplyOnlyAtCronInterval association);;
    d_Set "association_name" (IString <$> ad_AssociationName association);;
    d_Set "instance_id" (IString <$> ad_InstanceId association);;
    d_Set "name" (IString <$> ad_Name association);;
    d_Set "association_id" (IString <$> ad_AssociationId association);;
    d_Set "schedule_expression" (IString <$> ad_ScheduleExpression association);;
    d_Set "document_version" (IString <$> ad_DocumentVersion association);;
    d_Set "compliance_severity" (IString <$> ad_ComplianceSeverity association);;
    d_Set "max_concurrency" (IString <$> ad_MaxConcurrency association);;
    d_Set "max_errors" (IString <$> ad_MaxErrors association);;
    d_Set "automation_target_parameter_name"
      (IString <$> ad_AutomationTargetParameterName association);;
    e ← d_Set "parameters" (Some (flattenParameters (ad_Parameters association)));
    match e with
    | Some err =>
      mret (sdkdiag_AppendErrorf diags
              ("reading SSM Association (" ++ Id d ++ "): " ++ err_Error err))
    | None =>
      e ← d_Set "targets" (Some (flattenTargets (ad_Targets association)));
      match e with
      | Some err =>
        mret (sdkdiag_AppendErrorf diags
                ("setting targets error: " ++ err_Error err))
      | None =>
        e ← d_Set "output_location"
              (Some (asInterfaceSlice
                       (flattenAssociationOutputLocation
                          (ad_OutputLocation association))));
        match e with
        | Some err =>
          mret (sdkdiag_AppendErrorf diags
                  ("setting output_location error: " ++ err_Error err))
        | None => mret diags
        end
      end
    end
  end.

Definition resourceAssociationCreate (meta : AWSClient) : M Diagnostics :=
  let diags : Diagnostics := [] in
  let conn := SSMConn meta in
  d ← getD;
  associationInput ← liftResult (resourceAssociationCreate_input d);
  created ← remote (CallCreateAssociation associationInput)
                   (CreateAssociationWithContext conn associationInput);
  match created with
  | inl err =>
    mret (sdkdiag_AppendErrorf diags
            ("creating SSM association: " ++ err_Error err))
  | inr resp =>
    match cao_AssociationDescription resp with
    | None => mret (sdkdiag_AppendErrorf diags "AssociationDescription was nil")
    | Some description =>
      modifyD (λ d, SetId d (aws_StringValue (ad_AssociationId description)));;
      d ← getD;
      let '(v, ok) := GetOk d "wait_for_success_timeout_seconds" in
      waited ←
        (if ok then
           n ← liftResult (assertInt v);
           let dur := secondsDuration n in
           r ← remote (CallWaitAssociationSuccess (Id d) dur)
                      (waitAssociationSuccess conn (Id d) dur);
           mret (match r with inl err => Some err | inr _ => None end)
         else mret None);
      match waited with
      | Some err =>
        mret (sdkdiag_AppendErrorf diags
                ("waiting for SSM Association (" ++ Id d
                 ++ ") to be Success: " ++ err_Error err))
      | None =>
        readDiags ← resourceAssociationRead meta;
        mret (diags ++ readDiags)%list
      end
    end
  end.

Definition resourceAssociationUpdate (meta : AWSClient) : M Diagnostics :=
  let diags : Diagnostics := [] in
  let conn := SSMConn meta in
  d ← getD;
  associationInput ← liftResult (resourceAssociationUpdate_input d);
  updated ← remote (CallUpdateAssociation associationInput)
                   (UpdateAssociationWithContext conn associationInput);
  match updated with
  | Some err =>
    mret (sdkdiag_AppendErrorf diags
            ("updating SSM association: " ++ err_Error err))
  | None =>
    readDiags ← resourceAssociationRead meta;
    mret (diags ++ readDiags)%list
  end.

Definition resourceAssociationDelete (meta : AWSClient) : M Diagnostics :=
  let diags : Diagnostics := [] in
  let conn := SSMConn meta in
  d ← getD;
  let params := {| dai_AssociationId := aws_String (Id d) |} in
  deleted ← remote (CallDeleteAssociation params)
                   (DeleteAssociationWithContext conn params);
  match deleted with
  | Some err =>
    if tfawserr_ErrCodeContains err ssm_ErrCodeAssociationDoesNotExist then
      mret diags
    else
      mret (sdkdiag_AppendErrorf diags
              ("deleting SSM association: " ++ err_Error err))
  | None => mret diags
  end.

End handlers.

Arguments resourceAssociationRead : simpl never.
Arguments Set_ : simpl never.

(** ** Vocabulary of the properties *)

Definition outputLocationKeys : list string :=
  ["s3_bucket_name"; "s3_key_prefix"; "s3_region"].

(** What one configured value becomes: a one-element list holding it. *)
Definition parameterValues (v : iface) : option (list (option string)) :=
  match v with
  | IString s => Some [Some s]
  | _ => None
  end.

Definition sampleParameters : gmap string iface :=
  <["Directory" := IString "/tmp"]> (<["Mode" := IString "0644"]> ∅).

(** A field is absent when the resource data holds no value for it. *)
Definition absent (d : ResourceData) (key : string) : Prop :=
  rd_values d !! key = None.

(** A field is unset when [GetOk] does not report it: the resource data
    holds no value for it, or its zero value. *)
Definition unset (d : ResourceData) (key : string) : Prop :=
  (GetOk d key).2 = false.

Definition createOmitsUnset (d : ResourceData) (input : CreateAssociationInput)
    : Prop :=
  (unset d "apply_only_at_cron_interval" →
   cai_ApplyOnlyAtCronInterval input = None)
  ∧ (unset d "association_name" → cai_AssociationName input = None)
  ∧ (unset d "instance_id" → cai_InstanceId input = None)
  ∧ (unset d "document_version" → cai_DocumentVersion input = None)
  ∧ (unset d "schedule_expression" → cai_ScheduleExpression input = None)
  ∧ (unset d "parameters" → cai_Parameters input = None)
  ∧ (unset d "targets" → cai_Targets input = None)
  ∧ (unset d "output_location" → cai_OutputLocation input = None)
  ∧ (unset d "compliance_severity" → cai_ComplianceSeverity input = None)
  ∧ (unset d "max_concurrency" → cai_MaxConcurrency input = None)
  ∧ (unset d "max_errors" → cai_MaxErrors input = None)
  ∧ (unset d "automation_target_parameter_name" →
     cai_AutomationTargetParameterName input = None).

Definition updateOmitsUnset (d : ResourceData) (input : UpdateAssociationInput)
    : Prop :=
  (unset d "apply_only_at_cron_interval" →
   uai_ApplyOnlyAtCronInterval input = None)
  ∧ (unset d "association_name" → uai_AssociationName input = None)
  ∧ (unset d "document_version" → uai_DocumentVersion input = None)
  ∧ (unset d "schedule_expression" → uai_ScheduleExpression input = None)
  ∧ (unset d "parameters" → uai_Parameters input = None)
  ∧ (unset d "targets" → uai_Targets input = None)
  ∧ (unset d "output_location" → uai_OutputLocation input = None)
  ∧ (unset d "compliance_severity" → uai_ComplianceSeverity input = None)
  ∧ (unset d "max_concurrency" → uai_MaxConcurrency input = None)
  ∧ (unset d "max_errors" → uai_MaxErrors input = None)
  ∧ (unset d "automation_target_parameter_name" →
     uai_AutomationTargetParameterName input = None).

(** A key of a block is unset when the block does not hold it or holds the
    empty string. *)
Definition unsetInBlock (stored : gmap string iface) (key : string) : Prop :=
  stored !! key = None ∨ stored !! key = Some (IString "").

(** When the first output-location block of the resource data has no
    region, the location of the request has none either. *)
Definition regionOmitted (d : ResourceData)
    (location : option InstanceAssociationOutputLocation) : Prop :=
  ∀ stored rest,
    rd_values d !! "output_location"
    = Some (ISlice (Some (IMap stored :: rest))) →
    unsetInBlock stored "s3_region" →
    ∃ s3, location = Some {| S3Location := Some s3 |}
          ∧ OutputS3Region s3 = None.

(** The fields the schema marks [Computed]. *)
Definition Computed (key : string) : bool :=
  bool_decide (key ∈ ["arn"; "association_id"; "document_version";
                      "parameters"; "targets"]).

(** The resource data an update reads: the configuration and, for the
    computed fields the configuration leaves out, the prior state. *)
Definition plannedData (config state : gmap string iface) (id : string)
    : ResourceData :=
  {| rd_values := config ∪ filter (λ kv, Computed kv.1 = true) state;
     rd_id := id;
     rd_isNew := false |}.

(** ** Sample data *)

Definition sampleAssociation : AssociationDescription :=
  {| ad_ApplyOnlyAtCronInterval := None;
     ad_AssociationId := Some "assoc-1";
     ad_AssociationName := None;
     ad_AutomationTargetParameterName := None;
     ad_ComplianceSeverity := None;
     ad_DocumentVersion := Some "$DEFAULT";
     ad_InstanceId := None;
     ad_MaxConcurrency := None;
     ad_MaxErrors := None;
     ad_Name := Some "AWS-RunPatchBaseline";
     ad_OutputLocation := None;
     ad_Parameters := None;
     ad_ScheduleExpression := None;
     ad_Targets := None |}.

Definition sampleNotFoundError : error :=
  {| err_Code := None; err_Error := "couldn't find resource" |}.

Definition sampleDoesNotExistError : error :=
  {| err_Code := Some "AssociationDoesNotExist";
     err_Error := "AssociationDoesNotExist: no such association" |}.

Definition sampleThrottlingError : error :=
  {| err_Code := Some "ThrottlingException";
     err_Error := "ThrottlingException: rate exceeded" |}.

(** A remote that creates [sampleAssociation] and no longer has the
    association that is deleted. *)
Definition sampleConn : SSM :=
  {| CreateAssociationWithContext :=
       λ _, inr {| cao_AssociationDescription := Some sampleAssociation |};
     UpdateAssociationWithContext := λ _, None;
     DeleteAssociationWithContext := λ _, Some sampleDoesNotExistError |}.

(** A remote whose create answers without a description. *)
Definition sampleNilDescriptionConn : SSM :=
  {| CreateAssociationWithContext :=
       λ _, inr {| cao_AssociationDescription := None |};
     UpdateAssociationWithContext := λ _, None;
     DeleteAssociationWithContext := λ _, None |}.

Definition sampleMeta (conn : SSM) : AWSClient :=
  {| Partition := "aws";
     Region := "eu-west-1";
     AccountID := "123456789012";
     SSMConn := conn |}.

Definition sampleNotFound (err : error) : bool :=
  bool_decide (err_Error err = "couldn't find resource").

Definition sampleFind (conn : SSM) (id : string)
    : error + AssociationDescription :=
  if bool_decide (id = "assoc-1") then inr sampleAssociation
  else inl sampleNotFoundError.

Definition sampleWait (conn : SSM) (id : string) (timeout : Z)
    : error + AssociationDescription :=
  inr sampleAssociation.

Definition sampleExpandTargets (l : option (list iface))
    : result (option (list Target)) :=
  Ok None.

Definition sampleFlattenParameters
    (p : option (gmap string (list (option string)))) : iface :=
  IMap ∅.

Definition sampleFlattenTargets (t : option (list Target)) : iface :=
  ISlice (Some []).

Definition sampleValues : gmap string iface :=
  <["name" := IString "AWS-RunPatchBaseline"]> ∅.

(** A resource in the state whose association is gone from the remote. *)
Definition sampleGone : ResourceData :=
  {| rd_values := sampleValues; rd_id := "assoc-gone"; rd_isNew := false |}.

(** A resource in the state whose association exists. *)
Definition sampleKnown : ResourceData :=
  {| rd_values := sampleValues; rd_id := "assoc-1"; rd_isNew := false |}.

(** A resource about to be created, with the given wait timeout. *)
Definition sampleNew (timeout : option Z) : ResourceData :=
  {| rd_values :=
       match timeout with
       | Some n => <["wait_for_success_timeout_seconds" := IInt n]> sampleValues
       | None => sampleValues
       end;
     rd_id := "";
     rd_isNew := true |}.

Definition sampleCreateInput : CreateAssociationInput :=
  {| cai_ApplyOnlyAtCronInterval := None;
     cai_AssociationName := None;
     cai_AutomationTargetParameterName := None;
     cai_ComplianceSeverity := None;
     cai_DocumentVersion := None;
     cai_InstanceId := None;
     cai_MaxConcurrency := None;
     cai_MaxErrors := None;
     cai_Name := Some "AWS-RunPatchBaseline";
     cai_OutputLocation := None;
     cai_Parameters := None;
     cai_ScheduleExpression := None;
     cai_Targets := None |}.

Definition sampleUpdateInput : UpdateAssociationInput :=
  {| uai_ApplyOnlyAtCronInterval := None;
     uai_AssociationId := Some "assoc-1";
     uai_AssociationName := None;
     uai_AutomationTargetParameterName := None;
     uai_ComplianceSeverity := None;
     uai_DocumentVersion := None;
     uai_MaxConcurrency := None;
     uai_MaxErrors := None;
     uai_OutputLocation := None;
     uai_Parameters := None;
     uai_ScheduleExpression := None;
     uai_Targets := None |}.

(** An output-location block that holds only the bucket name. *)
Definition sampleBucketOnly : gmap string iface :=
  <["s3_bucket_name" := IString "logs"]> ∅.

(** A resource configured with an output location that names only the
    bucket. *)
Definition sampleBucketOnlyData : ResourceData :=
  {| rd_values :=
       <["output_location" := ISlice (Some [IMap sampleBucketOnly])]>
         sampleValues;
     rd_id := "assoc-1";
     rd_isNew := false |}.

Definition sampleBucketOnlyLocation : InstanceAssociationOutputLocation :=
  {| S3Location := Some {| OutputS3BucketName := Some "logs";
                           OutputS3KeyPrefix := Some "";
                           OutputS3Region := None |} |}.

(** A prior state whose document version was computed by the remote. *)
Definition samplePriorState : gmap string iface :=
  <["document_version" := IString "$DEFAULT"]>
    (<["schedule_expression" := IString "rate(1 day)"]> sampleValues).

(** An output-location block that holds every key, the optional ones as
    empty strings. *)
Definition sampleEmptyOptionals : gmap string iface :=
  <["s3_bucket_name" := IString "logs"]>
    (<["s3_key_prefix" := IString ""]> (<["s3_region" := IString ""]> ∅)).

(** ** Vocabulary of the further properties *)

(** What a location becomes after it is flattened and expanded again: a nil
    bucket name reads back as the empty string and an empty region is
    dropped. *)
Definition readBack (location : option InstanceAssociationOutputLocation)
    : option InstanceAssociationOutputLocation :=
  match location with
  | Some {| S3Location := Some s3 |} =>
    Some {| S3Location := Some
      {| OutputS3BucketName := Some (aws_StringValue (OutputS3BucketName s3));
         OutputS3KeyPrefix := OutputS3KeyPrefix s3;
         OutputS3Region :=
           match OutputS3Region s3 with
           | Some r => if decide (r = "") then None else Some r
           | None => None
           end |} |}
  | _ => None
  end.

(** An output-location block as the schema shapes it and as the flattener
    can give it back: only the three keys, string values, a bucket name, and
    no empty region. *)
Definition wellFormedBlock (cfg : gmap string iface) : Prop :=
  (∃ b, cfg !! "s3_bucket_name" = Some (IString b))
  ∧ ∀ k v, cfg !! k = Some v →
           k ∈ outputLocationKeys
           ∧ ∃ s, v = IString s ∧ (k = "s3_region" → s ≠ "").

Definition isString (v : iface) : bool :=
  match v with
  | IString _ => true
  | _ => false
  end.

Definition sampleFullBlock : gmap string iface :=
  <["s3_bucket_name" := IString "logs"]>
    (<["s3_key_prefix" := IString "ssm/"]>
       (<["s3_region" := IString "eu-west-1"]> ∅)).

(** A string field that [GetOk] reports as set is copied into the
    request. *)
Definition copied (d : ResourceData) (key : string) (field : option string)
    : Prop :=
  ∀ s, GetOk d key = (IString s, true) → field = Some s.

Definition createCopiesPresent
    (expandTargets : option (list iface) → result (option (list Target)))
    (d : ResourceData) (input : CreateAssociationInput) : Prop :=
  (∀ s, Get d "name" = IString s → cai_Name input = Some s)
  ∧ (GetOk d "apply_only_at_cron_interval" = (IBool true, true) →
     cai_ApplyOnlyAtCronInterval input = Some true)
  ∧ copied d "association_name" (cai_AssociationName input)
  ∧ copied d "instance_id" (cai_InstanceId input)
  ∧ copied d "document_version" (cai_DocumentVersion input)
  ∧ copied d "schedule_expression" (cai_ScheduleExpression input)
  ∧ copied d "compliance_severity" (cai_ComplianceSeverity input)
  ∧ copied d "max_concurrency" (cai_MaxConcurrency input)
  ∧ copied d "max_errors" (cai_MaxErrors input)
  ∧ copied d "automation_target_parameter_name"
      (cai_AutomationTargetParameterName input)
  ∧ (∀ m, GetOk d "parameters" = (IMap m, true) →
          expandDocumentParameters m = Ok (default ∅ (cai_Parameters input))
          ∧ is_Some (cai_Parameters input))
  ∧ (∀ l, GetOk d "targets" = (ISlice l, true) →
          expandTargets l = Ok (cai_Targets input))
  ∧ (∀ l, GetOk d "output_location" = (ISlice l, true) →
          expandAssociationOutputLocation l = Ok (cai_OutputLocation input)).

Definition updateCopiesPresent
    (expandTargets : option (list iface) → result (option (list Target)))
    (d : ResourceData) (input : UpdateAssociationInput) : Prop :=
  uai_AssociationId input = Some (Id d)
  ∧ (GetOk d "apply_only_at_cron_interval" = (IBool true, true) →
     uai_ApplyOnlyAtCronInterval input = Some true)
  ∧ copied d "association_name" (uai_AssociationName input)
  ∧ copied d "document_version" (uai_DocumentVersion input)
  ∧ copied d "schedule_expression" (uai_ScheduleExpression input)
  ∧ copied d "compliance_severity" (uai_ComplianceSeverity input)
  ∧ copied d "max_concurrency" (uai_MaxConcurrency input)
  ∧ copied d "max_errors" (uai_MaxErrors input)
  ∧ copied d "automation_target_parameter_name"
      (uai_AutomationTargetParameterName input)
  ∧ (∀ m, GetOk d "parameters" = (IMap m, true) →
          expandDocumentParameters m = Ok (default ∅ (uai_Parameters input))
          ∧ is_Some (uai_Parameters input))
  ∧ (∀ l, GetOk d "targets" = (ISlice l, true) →
          expandTargets l = Ok (uai_Targets input))
  ∧ (∀ l, GetOk d "output_location" = (ISlice l, true) →
          expandAssociationOutputLocation l = Ok (uai_OutputLocation input)).

(** No top-level attribute of the request holds a zero value. *)
Definition createSendsNoZero (input : CreateAssociationInput) : Prop :=
  cai_ApplyOnlyAtCronInterval input ≠ Some false
  ∧ cai_AssociationName input ≠ Some ""
  ∧ cai_InstanceId input ≠ Some ""
  ∧ cai_DocumentVersion input ≠ Some ""
  ∧ cai_ScheduleExpression input ≠ Some ""
  ∧ cai_ComplianceSeverity input ≠ Some ""
  ∧ cai_MaxConcurrency input ≠ Some ""
  ∧ cai_MaxErrors input ≠ Some ""
  ∧ cai_AutomationTargetParameterName input ≠ Some ""
  ∧ cai_Parameters input ≠ Some ∅.

Definition updateSendsNoZero (input : UpdateAssociationInput) : Prop :=
  uai_ApplyOnlyAtCronInterval input ≠ Some false
  ∧ uai_AssociationName input ≠ Some ""
  ∧ uai_DocumentVersion input ≠ Some ""
  ∧ uai_ScheduleExpression input ≠ Some ""
  ∧ uai_ComplianceSeverity input ≠ Some ""
  ∧ uai_MaxConcurrency input ≠ Some ""
  ∧ uai_MaxErrors input ≠ Some ""
  ∧ uai_AutomationTargetParameterName input ≠ Some ""
  ∧ uai_Parameters input ≠ Some ∅.

(** A fully configured resource. *)
Definition sampleConfigured : ResourceData :=
  {| rd_values :=
       <["apply_only_at_cron_interval" := IBool true]>
         (<["association_name" := IString "patching"]>
            (<["schedule_expression" := IString "rate(1 day)"]>
               (<["max_errors" := IString "0"]>
                  (<["parameters" := IMap sampleParameters]>
                     (<["output_location" :=
                          ISlice (Some [IMap sampleFullBlock])]>
                        sampleValues)))));
     rd_id := "assoc-1";
     rd_isNew := false |}.

Definition sampleExpandedParameters : gmap string (list (option string)) :=
  <["Directory" := [Some "/tmp"]]> (<["Mode" := [Some "0644"]]> ∅).

Definition sampleExpandedLocation : InstanceAssociationOutputLocation :=
  {| S3Location := Some {| OutputS3BucketName := Some "logs";
                           OutputS3KeyPrefix := Some "ssm/";
                           OutputS3Region := Some "eu-west-1" |} |}.

Definition sampleConfiguredCreateInput : CreateAssociationInput :=
  {| cai_ApplyOnlyAtCronInterval := Some true;
     cai_AssociationName := Some "patching";
     cai_AutomationTargetParameterName := None;
     cai_ComplianceSeverity := None;
     cai_DocumentVersion := None;
     cai_InstanceId := None;
     cai_MaxConcurrency := None;
     cai_MaxErrors := Some "0";
     cai_Name := Some "AWS-RunPatchBaseline";
     cai_OutputLocation := Some sampleExpandedLocation;
     cai_Parameters := Some sampleExpandedParameters;
     cai_ScheduleExpression := Some "rate(1 day)";
     cai_Targets := None |}.

Definition sampleConfiguredUpdateInput : UpdateAssociationInput :=
  {| uai_ApplyOnlyAtCronInterval := Some true;
     uai_AssociationId := Some "assoc-1";
     uai_AssociationName := Some "patching";
     uai_AutomationTargetParameterName := None;
     uai_ComplianceSeverity := None;
     uai_DocumentVersion := None;
     uai_MaxConcurrency := None;
     uai_MaxErrors := Some "0";
     uai_OutputLocation := Some sampleExpandedLocation;
     uai_Parameters := Some sampleExpandedParameters;
     uai_ScheduleExpression := Some "rate(1 day)";
     uai_Targets := None |}.

(** A stand-in for [expandTargets] that keeps the key of each block. *)
Definition sampleExpandTargetsByKey (l : option (list iface))
    : result (option (list Target)) :=
  Ok (Some (List.map
              (λ elem,
                 {| Key := match elem with
                           | IMap m =>
                             match m !! "key" with
                             | Some (IString k) => Some k
                             | _ => None
                             end
                           | _ => None
                           end;
                    Values := None |})
              (default [] l))).

(** A resource configured with a target and with an output location that
    names only the bucket. *)
Definition sampleTargeted : ResourceData :=
  {| rd_values :=
       <["targets" :=
           ISlice (Some [IMap (<["key" := IString "InstanceIds"]>
                                 (<["values" :=
                                      ISlice (Some [IString "i-1"])]> ∅))])]>
         (<["instance_id" := IString "i-0"]>
            (<["output_location" := ISlice (Some [IMap sampleBucketOnly])]>
               sampleValues));
     rd_id := "assoc-1";
     rd_isNew := false |}.

Definition sampleTargetedCreateInput : CreateAssociationInput :=
  {| cai_ApplyOnlyAtCronInterval := None;
     cai_AssociationName := None;
     cai_AutomationTargetParameterName := None;
     cai_ComplianceSeverity := None;
     cai_DocumentVersion := None;
     cai_InstanceId := Some "i-0";
     cai_MaxConcurrency := None;
     cai_MaxErrors := None;
     cai_Name := Some "AWS-RunPatchBaseline";
     cai_OutputLocation := Some sampleBucketOnlyLocation;
     cai_Parameters := None;
     cai_ScheduleExpression := None;
     cai_Targets := Some [{| Key := Some "InstanceIds"; Values := None |}] |}.

Definition sampleTargetedUpdateInput : UpdateAssociationInput :=
  {| uai_ApplyOnlyAtCronInterval := None;
     uai_AssociationId := Some "assoc-1";
     uai_AssociationName := None;
     uai_AutomationTargetParameterName := None;
     uai_ComplianceSeverity := None;
     uai_DocumentVersion := None;
     uai_MaxConcurrency := None;
     uai_MaxErrors := None;
     uai_OutputLocation := Some sampleBucketOnlyLocation;
     uai_Parameters := None;
     uai_ScheduleExpression := None;
     uai_Targets := Some [{| Key := Some "InstanceIds"; Values := None |}] |}.

(** The scalar fields of the resource data hold what the association
    description holds; a nil attribute leaves the field unset. *)
Definition mirrorsScalars (association : AssociationDescription)
    (d : ResourceData) : Prop :=
  rd_values d !! "apply_only_at_cron_interval"
    = IBool <$> ad_ApplyOnlyAtCronInterval association
  ∧ rd_values d !! "association_name"
    = IString <$> ad_AssociationName association
  ∧ rd_values d !! "instance_id" = IString <$> ad_InstanceId association
  ∧ rd_values d !! "name" = IString <$> ad_Name association
  ∧ rd_values d !! "association_id"
    = IString <$> ad_AssociationId association
  ∧ rd_values d !! "schedule_expression"
    = IString <$> ad_ScheduleExpression association
  ∧ rd_values d !! "document_version"
    = IString <$> ad_DocumentVersion association
  ∧ rd_values d !! "compliance_severity"
    = IString <$> ad_ComplianceSeverity association
  ∧ rd_values d !! "max_concurrency"
    = IString <$> ad_MaxConcurrency association
  ∧ rd_values d !! "max_errors" = IString <$> ad_MaxErrors association
  ∧ rd_values d !! "automation_target_parameter_name"
    = IString <$> ad_AutomationTargetParameterName association.




(** The status polls a create issues for the configured timeout. *)
Definition pollCalls (d : ResourceData) (id : string) : list Call :=
  match rd_values d !! "wait_for_success_timeout_seconds" with
  | Some (IInt n) =>
    if decide (n = 0%Z) then []
    else [CallWaitAssociationSuccess id (secondsDuration n)]
  | _ => []
  end.

Definition errorDiagnostic (summary : string) : Diagnostic :=
  {| diag_Severity := SeverityError; diag_Summary := summary |}.

(** A resource being created while the remote does not know the identifier
    the create returns. *)
Definition sampleFindNothing (conn : SSM) (id : string)
    : error + AssociationDescription :=
  inl sampleNotFoundError.

Definition sampleWaitTimeout (conn : SSM) (id : string) (timeout : Z)
    : error + AssociationDescription :=
  inl {| err_Code := None; err_Error := "timeout while waiting for state" |}.

Definition sampleFailingConn : SSM :=
  {| CreateAssociationWithContext := λ _, inl sampleThrottlingError;
     UpdateAssociationWithContext := λ _, Some sampleThrottlingError;
     DeleteAssociationWithContext := λ _, Some sampleThrottlingError |}.

(** A resource whose name is not a string: building a request panics. *)
Definition sampleMistyped : ResourceData :=
  {| rd_values := <["name" := IInt 7]> ∅; rd_id := "assoc-1";
     rd_isNew := false |}.

(** ** Acceptance checks of the SageMaker model package group policy *)

(** [terraform.ResourceState], as far as the checks read it: the resource
    type and the primary identifier. *)
Record ResourceState : Type := {
  rs_Type : string;
  rs_PrimaryID : string;
}.

Record GetModelPackageGroupPolicyOutput : Type := {
  ResourcePolicy : option string;
}.

(** [fmt.Errorf] with a trailing [%w]: the text is extended and the wrapped
    error, with its code, stays reachable. *)
Definition fmt_Errorf_wrap (message : string) (err : error) : error :=
  {| err_Code := err_Code err; err_Error := message ++ err_Error err |}.

Definition fmt_Errorf (message : string) : error :=
  {| err_Code := None; err_Error := message |}.

Section acceptance_checks.

(** [tfresource.NotFound] on a non-nil error (it is false on nil), and
    [finder.ModelPackageGroupPolicyByName] on the provider's connection. *)
Variable tfresource_NotFound : error → bool.
Variable ModelPackageGroupPolicyByName :
  string → error + GetModelPackageGroupPolicyOutput.

(** The [range] loop of the destroy check over the resources of the root
    module, in the order the iteration produces them. *)
Fixpoint testAccCheckAWSSagemakerModelPackageGroupPolicyDestroy_loop
    (resources : list (string * ResourceState)) : option error :=
  match resources with
  | [] => None
  | (_, rs) :: rest =>
    if negb (String.eqb (rs_Type rs) "aws_sagemaker_model_package_group_policy")
    then testAccCheckAWSSagemakerModelPackageGroupPolicyDestroy_loop rest
    else
      match ModelPackageGroupPolicyByName (rs_PrimaryID rs) with
      | inl err =>
        if tfresource_NotFound err
        then testAccCheckAWSSagemakerModelPackageGroupPolicyDestroy_loop rest
        else Some (fmt_Errorf_wrap
                     ("error reading Sagemaker Model Package Group Policy ("
                      ++ rs_PrimaryID rs ++ "): ") err)
      | inr _ =>
        testAccCheckAWSSagemakerModelPackageGroupPolicyDestroy_loop rest
      end
  end.

Definition testAccCheckAWSSagemakerModelPackageGroupPolicyDestroy
    (s : gmap string ResourceState) : option error :=
  testAccCheckAWSSagemakerModelPackageGroupPolicyDestroy_loop (map_to_list s).

(** The exists check: the error it returns and the content of [*mpg]
    afterwards. *)
Definition testAccCheckAWSSagemakerModelPackageGroupPolicyExists
    (n : string) (mpg : GetModelPackageGroupPolicyOutput)
    (s : gmap string ResourceState)
    : option error * GetModelPackageGroupPolicyOutput :=
  match s !! n with
  | None => (Some (fmt_Errorf ("Not found: " ++ n)), mpg)
  | Some rs =>
    if String.eqb (rs_PrimaryID rs) "" then
      (Some (fmt_Errorf "No sagmaker Model Package Group ID is set"), mpg)
    else
      match ModelPackageGroupPolicyByName (rs_PrimaryID rs) with
      | inl err => (Some err, mpg)
      | inr resp => (None, resp)
      end
  end.

End acceptance_checks.

(** What the destroy check looks at: a policy resource whose lookup fails
    with an error that is not a not-found. *)
Definition hardLookupFailure (tfresource_NotFound : error → bool)
    (ModelPackageGroupPolicyByName :
       string → error + GetModelPackageGroupPolicyOutput)
    (rs : ResourceState) : Prop :=
  rs_Type rs = "aws_sagemaker_model_package_group_policy"
  ∧ ∃ err, ModelPackageGroupPolicyByName (rs_PrimaryID rs) = inl err
           ∧ tfresource_NotFound err = false.

Definition samplePolicyState : gmap string ResourceState :=
  <["aws_sagemaker_model_package_group_policy.test" :=
      {| rs_Type := "aws_sagemaker_model_package_group_policy";
         rs_PrimaryID := "group-1" |}]>
    (<["aws_sagemaker_model_package_group.test" :=
         {| rs_Type := "aws_sagemaker_model_package_group";
            rs_PrimaryID := "group-1" |}]> ∅).

(** A remote on which the policy of every group still exists. *)
Definition samplePolicyFinder (name : string)
    : error + GetModelPackageGroupPolicyOutput :=
  inr {| ResourcePolicy := Some "{}" |}.

Definition sampleGoneUpdateInput : UpdateAssociationInput :=
  {| uai_ApplyOnlyAtCronInterval := None;
     uai_AssociationId := Some "assoc-gone";
     uai_AssociationName := None;
     uai_AutomationTargetParameterName := None;
     uai_ComplianceSeverity := None;
     uai_DocumentVersion := None;
     uai_MaxConcurrency := None;
     uai_MaxErrors := None;
     uai_OutputLocation := None;
     uai_Parameters := None;
     uai_ScheduleExpression := None;
     uai_Targets := None |}.

(** ** Validation patterns of [max_concurrency] and [max_errors] *)

(** Regular expressions, as far as the two patterns need them.  Both
    patterns are anchored at both ends, so a value is valid when the whole
    string matches what stands between the anchors. *)
Inductive regex : Type :=
| RNone
| REps
| RLit (c : ascii)
| RRange (lo hi : ascii)
| RCat (r1 r2 : regex)
| RAlt (r1 r2 : regex)
| RStar (r : regex).

Definition inRange (lo hi c : ascii) : bool :=
  (N_of_ascii lo <=? N_of_ascii c)%N && (N_of_ascii c <=? N_of_ascii hi)%N.

(** The strings a regular expression matches. *)
Inductive Matches : regex → string → Prop :=
| MatchesEps : Matches REps ""
| MatchesLit c : Matches (RLit c) (String c "")
| MatchesRange lo hi c :
    inRange lo hi c = true → Matches (RRange lo hi) (String c "")
| MatchesCat r1 r2 s1 s2 :
    Matches r1 s1 → Matches r2 s2 → Matches (RCat r1 r2) (s1 ++ s2)
| MatchesAltL r1 r2 s : Matches r1 s → Matches (RAlt r1 r2) s
| MatchesAltR r1 r2 s : Matches r2 s → Matches (RAlt r1 r2) s
| MatchesStarNil r : Matches (RStar r) ""
| MatchesStarCons r s1 s2 :
    Matches r s1 → Matches (RStar r) s2 → Matches (RStar r) (s1 ++ s2).

(** Matching by derivatives. *)
Fixpoint nullable (r : regex) : bool :=
  match r with
  | RNone | RLit _ | RRange _ _ => false
  | REps | RStar _ => true
  | RCat r1 r2 => nullable r1 && nullable r2
  | RAlt r1 r2 => nullable r1 || nullable r2
  end.

Fixpoint deriv (c : ascii) (r : regex) : regex :=
  match r with
  | RNone | REps => RNone
  | RLit c' => if Ascii.eqb c c' then REps else RNone
  | RRange lo hi => if inRange lo hi c then REps else RNone
  | RCat r1 r2 =>
    if nullable r1 then RAlt (RCat (deriv c r1) r2) (deriv c r2)
    else RCat (deriv c r1) r2
  | RAlt r1 r2 => RAlt (deriv c r1) (deriv c r2)
  | RStar r' => RCat (deriv c r') (RStar r')
  end.

Fixpoint MatchString (r : regex) (s : string) : bool :=
  match s with
  | EmptyString => nullable r
  | String c s' => MatchString (deriv c r) s'
  end.

Definition digit19 : regex := RRange "1"%char "9"%char.
Definition digit09 : regex := RRange "0"%char "9"%char.
Definition percent : regex := RLit "%"%char.

(** [^([1-9][0-9]*|[1-9][0-9]%|[1-9]%|100%)$] *)
Definition maxConcurrencyPattern : regex :=
  RAlt (RCat digit19 (RStar digit09))
    (RAlt (RCat digit19 (RCat digit09 percent))
       (RAlt (RCat digit19 percent)
          (RCat (RLit "1"%char)
             (RCat (RLit "0"%char) (RCat (RLit "0"%char) percent))))).

(** [^([1-9][0-9]*|[0]|[1-9][0-9]%|[0-9]%|100%)$] *)
Definition maxErrorsPattern : regex :=
  RAlt (RCat digit19 (RStar digit09))
    (RAlt (RRange "0"%char "0"%char)
       (RAlt (RCat digit19 (RCat digit09 percent))
          (RAlt (RCat digit09 percent)
             (RCat (RLit "1"%char)
                (RCat (RLit "0"%char) (RCat (RLit "0"%char) percent)))))).

(** The [ValidateFunc] of the two fields: whether the value is accepted. *)
Definition validMaxConcurrency (v : string) : bool :=
  MatchString maxConcurrencyPattern v.

Definition validMaxErrors (v : string) : bool :=
  MatchString maxErrorsPattern v.

Fixpoint allChars (P : ascii → bool) (s : string) : bool :=
  match s with
  | EmptyString => true
  | String c s' => P c && allChars P s'
  end.

(** * Properties *)

(** ** Output location: flatten *)

Lemma flatten_item_lookup (s3 : S3OutputLocation) :
  ∃ item : gmap string iface,
    flattenAssociationOutputLocation (Some {| S3Location := Some s3 |})
      = Some [item]
    ∧ item !! "s3_bucket_name"
      = Some (IString (aws_StringValue (OutputS3BucketName s3)))
    ∧ item !! "s3_key_prefix" = IString <$> OutputS3KeyPrefix s3
    ∧ item !! "s3_region" = IString <$> OutputS3Region s3
    ∧ ∀ k, is_Some (item !! k) → k ∈ outputLocationKeys.
Proof.
  destruct s3 as [bucket [prefix|] [region|]]; cbn;
    eexists; (split; [reflexivity|]);
    repeat split; try (by vm_compute);
    intros k [v Hk];
    repeat (apply lookup_insert_Some in Hk as [[<- _]|[_ Hk]];
            [unfold outputLocationKeys; set_solver|]);
    by rewrite lookup_empty in Hk.
Qed.

(** C7: [flattenAssociationOutputLocation] returns nil when the location or
    its S3 location is nil; otherwise it returns a list of exactly one map,
    which always holds the bucket name, holds the key prefix and the region
    exactly when the response has them, and holds no other key. *)
Theorem flattenAssociationOutputLocation_shape :
  flattenAssociationOutputLocation None = None
  ∧ flattenAssociationOutputLocation (Some {| S3Location := None |}) = None
  ∧ ∀ s3 : S3OutputLocation,
      ∃ item : gmap string iface,
        flattenAssociationOutputLocation (Some {| S3Location := Some s3 |})
          = Some [item]
        ∧ item !! "s3_bucket_name"
          = Some (IString (aws_StringValue (OutputS3BucketName s3)))
        ∧ item !! "s3_key_prefix" = IString <$> OutputS3KeyPrefix s3
        ∧ item !! "s3_region" = IString <$> OutputS3Region s3
        ∧ ∀ k, is_Some (item !! k) → k ∈ outputLocationKeys.
Proof.
  split; [reflexivity|]. split; [reflexivity|]. apply flatten_item_lookup.
Qed.

(** ** Output location: expand *)

Lemma expand_cons_map (cfg : gmap string iface) (rest : list iface) :
  expandAssociationOutputLocation (Some (IMap cfg :: rest))
  = (bucket ← assertString (mapIndex cfg "s3_bucket_name");
     prefix ← match cfg !! "s3_key_prefix" with
              | Some v => s ← assertString v; Ok (aws_String s)
              | None => Ok None
              end;
     Ok (Some {| S3Location := Some {|
                   OutputS3BucketName := aws_String bucket;
                   OutputS3KeyPrefix := prefix;
                   OutputS3Region :=
                     match cfg !! "s3_region" with
                     | Some (IString v) =>
                       if decide (v = "") then None else aws_String v
                     | _ => None
                     end |} |})).
Proof. reflexivity. Qed.

Lemma result_bind_Ok {A B} (r : result A) (k : A → result B) (b : B) :
  r ≫= k = Ok b → ∃ a, r = Ok a ∧ k a = Ok b.
Proof. destruct r as [a|p]; [eauto|discriminate]. Qed.

Lemma result_bind_Panic {A B} (r : result A) (k : A → result B) (p : panic) :
  r ≫= k = Panic p → r = Panic p ∨ ∃ a, r = Ok a ∧ k a = Panic p.
Proof. destruct r as [a|q]; [eauto|intros [= ->]; by left]. Qed.

Lemma assertString_no_index v : assertString v ≠ Panic PanicIndexOutOfRange.
Proof. by destruct v. Qed.

Lemma assertMap_no_index v : assertMap v ≠ Panic PanicIndexOutOfRange.
Proof. by destruct v. Qed.

Lemma assertSlice_no_index v : assertSlice v ≠ Panic PanicIndexOutOfRange.
Proof. by destruct v. Qed.

Lemma expand_index_panic (config : option (list iface)) :
  expandAssociationOutputLocation config = Panic PanicIndexOutOfRange
  ↔ config = Some [].
Proof.
  split; [|by intros ->].
  destruct config as [[|first rest]|]; [done| |done].
  intros H. exfalso. cbn in H.
  apply result_bind_Panic in H as [H|(cfg & _ & H)];
    [by apply assertMap_no_index in H|].
  apply result_bind_Panic in H as [H|(bucket & _ & H)];
    [by apply assertString_no_index in H|].
  apply result_bind_Panic in H as [H|(prefix & _ & H)]; [|done].
  destruct (cfg !! "s3_key_prefix") as [v|]; [|done].
  apply result_bind_Panic in H as [H|(s & _ & H)]; [|done].
  by apply assertString_no_index in H.
Qed.

Lemma GetOk_ok_nonzero (d : ResourceData) (key : string) (v : iface) :
  GetOk d key = (v, true) →
  (∃ w, rd_values d !! key = Some w ∧ v = normalizeValue key w)
  ∧ isZero v = false.
Proof.
  unfold GetOk. destruct (rd_values d !! key) as [w|]; [|done].
  intros [= <- H]. split; [by exists w|].
  by destruct (isZero (normalizeValue key w)).
Qed.

(** C9: [expandAssociationOutputLocation] returns nil for a nil list and
    indexes the first element of any other list, so it panics with an index
    out of range exactly on the allocated empty list; guarded by [GetOk] as
    in the callers, the list is never empty and that panic cannot occur. *)
Theorem expandAssociationOutputLocation_index_safety :
  expandAssociationOutputLocation None = Ok None
  ∧ expandAssociationOutputLocation (Some []) = Panic PanicIndexOutOfRange
  ∧ (∀ config, expandAssociationOutputLocation config
               = Panic PanicIndexOutOfRange ↔ config = Some [])
  ∧ (∀ d v config,
       GetOk d "output_location" = (v, true) → assertSlice v = Ok config →
       ∃ first rest, config = Some (first :: rest))
  ∧ (∀ d, ifGetOk d "output_location"
             (λ v, l ← assertSlice v; expandAssociationOutputLocation l)
          ≠ Panic PanicIndexOutOfRange).
Proof.
  split; [done|]. split; [done|]. split; [apply expand_index_panic|].
  assert (Hne : ∀ d v config,
             GetOk d "output_location" = (v, true) →
             assertSlice v = Ok config →
             ∃ first rest, config = Some (first :: rest)).
  { intros d v config [_ Hz]%GetOk_ok_nonzero Hs.
    destruct v as [| | | |l|]; try discriminate. injection Hs as <-.
    destruct l as [[|first rest]|]; [done|eauto|done]. }
  split; [exact Hne|].
  intros d. unfold ifGetOk.
  destruct (GetOk d "output_location") as [v [|]] eqn:Hg; [|done].
  intros H. apply result_bind_Panic in H as [H|(l & Hs & H)];
    [by apply assertSlice_no_index in H|].
  destruct (Hne _ _ _ Hg Hs) as (first & rest & ->).
  by apply expand_index_panic in H.
Qed.

(** ** Output location: expand after flatten *)

(** C5: for an output location whose present fields are all non-empty,
    expanding the flattened form gives back a location whose bucket name,
    key prefix and region are those of the original. *)
Theorem expand_flatten_output_location (s3 : S3OutputLocation) :
  (∀ v, OutputS3BucketName s3 = Some v → v ≠ "") →
  (∀ v, OutputS3KeyPrefix s3 = Some v → v ≠ "") →
  (∀ v, OutputS3Region s3 = Some v → v ≠ "") →
  ∃ s3' : S3OutputLocation,
    expandAssociationOutputLocation
      (asConfig (flattenAssociationOutputLocation
                   (Some {| S3Location := Some s3 |})))
      = Ok (Some {| S3Location := Some s3' |})
    ∧ (∀ v, OutputS3BucketName s3 = Some v → OutputS3BucketName s3' = Some v)
    ∧ (∀ v, OutputS3KeyPrefix s3 = Some v → OutputS3KeyPrefix s3' = Some v)
    ∧ (∀ v, OutputS3Region s3 = Some v → OutputS3Region s3' = Some v).
Proof.
  intros _ _ Hregion.
  destruct (flatten_item_lookup s3) as (item & -> & Hb & Hp & Hr & _).
  cbn [asConfig option_map List.map]. rewrite expand_cons_map.
  unfold mapIndex. rewrite Hb, Hp, Hr. cbn.
  destruct s3 as [bucket prefix region]; cbn in *.
  destruct prefix as [prefix|], region as [region|]; cbn;
    try (destruct (decide (region = "")) as [->|_];
         [by destruct (Hregion "")|]);
    eexists; (split; [reflexivity|]); cbn;
    (split; [by intros v ->|]); by split.
Qed.

Lemma expand_flatten_output_location_witness :
  ∃ s3' : S3OutputLocation,
    expandAssociationOutputLocation
      (asConfig (flattenAssociationOutputLocation
                   (Some {| S3Location := Some
                      {| OutputS3BucketName := Some "logs";
                         OutputS3KeyPrefix := Some "ssm/";
                         OutputS3Region := Some "eu-west-1" |} |})))
      = Ok (Some {| S3Location := Some s3' |})
    ∧ (∀ v, Some "logs" = Some v → OutputS3BucketName s3' = Some v)
    ∧ (∀ v, Some "ssm/" = Some v → OutputS3KeyPrefix s3' = Some v)
    ∧ (∀ v, Some "eu-west-1" = Some v → OutputS3Region s3' = Some v).
Proof.
  apply (expand_flatten_output_location
           {| OutputS3BucketName := Some "logs";
              OutputS3KeyPrefix := Some "ssm/";
              OutputS3Region := Some "eu-west-1" |});
    cbn; intros v [= <-]; discriminate.
Defined.

(** Without the hypothesis the region is not recovered: an empty region is
    dropped by the expander. *)
Example expand_flatten_empty_region :
  expandAssociationOutputLocation
    (asConfig (flattenAssociationOutputLocation
                 (Some {| S3Location := Some
                    {| OutputS3BucketName := Some "logs";
                       OutputS3KeyPrefix := None;
                       OutputS3Region := Some "" |} |})))
  = Ok (Some {| S3Location := Some
          {| OutputS3BucketName := Some "logs";
             OutputS3KeyPrefix := None;
             OutputS3Region := None |} |}).
Proof. vm_compute. reflexivity. Qed.

(** A nil bucket name comes back as the empty string, and nil locations stay
    nil. *)
Example expand_flatten_nil_bucket :
  expandAssociationOutputLocation
    (asConfig (flattenAssociationOutputLocation
                 (Some {| S3Location := Some
                    {| OutputS3BucketName := None;
                       OutputS3KeyPrefix := None;
                       OutputS3Region := None |} |})))
  = Ok (Some {| S3Location := Some
          {| OutputS3BucketName := Some "";
             OutputS3KeyPrefix := None;
             OutputS3Region := None |} |}).
Proof. vm_compute. reflexivity. Qed.

Example expand_flatten_nil :
  expandAssociationOutputLocation
    (asConfig (flattenAssociationOutputLocation None)) = Ok None
  ∧ expandAssociationOutputLocation
      (asConfig (flattenAssociationOutputLocation
                   (Some {| S3Location := None |}))) = Ok None.
Proof. split; reflexivity. Qed.

(** ** Document parameters *)

Lemma expandDocumentParameters_loop_cons k v entries docParams :
  expandDocumentParameters_loop ((k, IString v) :: entries) docParams
  = expandDocumentParameters_loop entries (<[k := [Some v]]> docParams).
Proof. reflexivity. Qed.

(** Run over entries with distinct keys and string values, the loop adds
    exactly one binding per entry and keeps the others. *)
Lemma expandDocumentParameters_loop_lookup (entries : list (string * iface)) :
  ∀ docParams : gmap string (list (option string)),
    NoDup entries.*1 →
    (∀ k v, (k, v) ∈ entries → ∃ s, v = IString s) →
    ∃ r, expandDocumentParameters_loop entries docParams = Ok r
         ∧ (∀ k v, (k, v) ∈ entries → r !! k = parameterValues v)
         ∧ (∀ k, k ∉ entries.*1 → r !! k = docParams !! k).
Proof.
  induction entries as [|[k0 v0] entries IH]; intros docParams Hnd Hstr.
  - exists docParams. split; [done|]. split; [|done].
    intros k v Hin. by apply elem_of_nil in Hin.
  - rewrite fmap_cons in Hnd. apply NoDup_cons in Hnd as [Hk0 Hnd].
    destruct (Hstr k0 v0) as [s0 ->]; [left|].
    rewrite expandDocumentParameters_loop_cons.
    destruct (IH (<[k0 := [Some s0]]> docParams) Hnd) as (r & -> & Hin & Hout).
    { intros k v Hkv. apply (Hstr k v). by right. }
    exists r. split; [done|]. split.
    + intros k v [[= -> ->]|Hkv]%elem_of_cons; [|by apply Hin].
      rewrite (Hout k0 Hk0). by rewrite lookup_insert_eq.
    + intros k Hk. rewrite fmap_cons in Hk.
      apply not_elem_of_cons in Hk as [Hne Hk].
      rewrite (Hout k Hk). by rewrite lookup_insert_ne.
Qed.

(** C6: for a parameter map with string values, whatever order the map is
    iterated in, [expandDocumentParameters] returns the same map: it has
    exactly the keys of the input and sends each key to the one-element list
    holding that key's string. *)
Theorem expandDocumentParameters_one_value_per_key
    (params : gmap string iface) (entries : list (string * iface)) :
  (∀ k v, params !! k = Some v → ∃ s, v = IString s) →
  entries ≡ₚ map_to_list params →
  ∃ r : gmap string (list (option string)),
    expandDocumentParameters params = Ok r
    ∧ expandDocumentParameters_loop entries ∅ = Ok r
    ∧ dom r = dom params
    ∧ ∀ k s, params !! k = Some (IString s) → r !! k = Some [Some s].
Proof.
  intros Hstr Hperm.
  assert (Hspec : ∀ l, l ≡ₚ map_to_list params →
            ∃ r, expandDocumentParameters_loop l ∅ = Ok r
                 ∧ ∀ k, r !! k = params !! k ≫= parameterValues).
  { intros l Hl.
    destruct (expandDocumentParameters_loop_lookup l ∅) as (r & Hr & Hin & Hout).
    - rewrite Hl. apply NoDup_fst_map_to_list.
    - intros k v Hkv. rewrite Hl in Hkv.
      apply elem_of_map_to_list in Hkv. eauto.
    - exists r. split; [done|]. intros k.
      destruct (params !! k) as [v|] eqn:Hk; cbn.
      + apply Hin. rewrite Hl. by apply elem_of_map_to_list.
      + rewrite Hout; [by rewrite lookup_empty|].
        rewrite Hl. intros [[k' v] [-> Hkv]]%list_elem_of_fmap.
        apply elem_of_map_to_list in Hkv. cbn in *. congruence. }
  destruct (Hspec (map_to_list params)) as (r & Hr & Hlook); [done|].
  destruct (Hspec entries Hperm) as (r' & Hr' & Hlook').
  assert (r' = r) as ->.
  { apply map_eq. intros k. by rewrite Hlook, Hlook'. }
  exists r. split; [exact Hr|]. split; [exact Hr'|]. split.
  - apply set_eq. intros k. rewrite !elem_of_dom, Hlook.
    destruct (params !! k) as [v|] eqn:Hk; cbn.
    + destruct (Hstr k v Hk) as [s ->]. cbn. split; eauto.
    + split; intros [? ?]; discriminate.
  - intros k s Hk. by rewrite Hlook, Hk.
Qed.

Lemma expandDocumentParameters_one_value_per_key_witness :
  ∃ r : gmap string (list (option string)),
    expandDocumentParameters sampleParameters = Ok r
    ∧ expandDocumentParameters_loop
        [("Mode", IString "0644"); ("Directory", IString "/tmp")] ∅ = Ok r
    ∧ dom r = dom sampleParameters
    ∧ ∀ k s, sampleParameters !! k = Some (IString s) → r !! k = Some [Some s].
Proof.
  apply (expandDocumentParameters_one_value_per_key sampleParameters
           [("Mode", IString "0644"); ("Directory", IString "/tmp")]).
  - intros k v Hk. unfold sampleParameters in Hk.
    apply lookup_insert_Some in Hk as [[_ <-]|[_ Hk]]; [eauto|].
    apply lookup_insert_Some in Hk as [[_ <-]|[_ Hk]]; [eauto|].
    by rewrite lookup_empty in Hk.
  - unfold sampleParameters.
    rewrite map_to_list_insert by (by vm_compute).
    rewrite map_to_list_insert by (by vm_compute).
    rewrite map_to_list_empty. apply perm_swap.
Defined.

(** A value that is not a string makes the type assertion panic. *)
Example expandDocumentParameters_non_string :
  expandDocumentParameters (<["Mode" := IInt 420]> ∅)
  = Panic PanicTypeAssertion.
Proof. vm_compute. reflexivity. Qed.

(** ** Optional fields of the requests *)

Lemma isZero_normalizeValue key v :
  isZero (normalizeValue key v) = isZero v.
Proof.
  destruct v as [| | | |[l|]|]; cbn; try done.
  by rewrite length_map.
Qed.

Lemma absent_unset d key : absent d key → unset d key.
Proof. unfold absent, unset, GetOk. by intros ->. Qed.

Lemma ifGetOk_unset {A} d key (set : iface → result (option A)) :
  unset d key → ifGetOk d key set = Ok None.
Proof.
  unfold unset, ifGetOk. destruct (GetOk d key) as [v ok]. cbn. by intros ->.
Qed.

Lemma ifGetOk_absent {A} d key (set : iface → result (option A)) :
  absent d key → ifGetOk d key set = Ok None.
Proof. intros H. by apply ifGetOk_unset, absent_unset. Qed.

Lemma ifGetOk_zero {A} d key v (set : iface → result (option A)) :
  rd_values d !! key = Some v → isZero v = true → ifGetOk d key set = Ok None.
Proof.
  intros Hv Hz. apply ifGetOk_unset. unfold unset, GetOk.
  rewrite Hv. cbn. by rewrite isZero_normalizeValue, Hz.
Qed.

Lemma ifGetOk_omitted {A} d key (set : iface → result (option A)) field :
  ifGetOk d key set = Ok field → unset d key → field = None.
Proof. intros H Hun. rewrite ifGetOk_unset in H by done. congruence. Qed.

Ltac peel_binds H :=
  repeat (let x := fresh "field" in
          let Hx := fresh "Hfield" in
          apply result_bind_Ok in H as (x & Hx & H)).

(** What the handlers read for a stored list that starts with a block. *)
Lemma GetOk_stored_block d key stored rest :
  rd_values d !! key = Some (ISlice (Some (IMap stored :: rest))) →
  GetOk d key
  = (ISlice (Some (IMap (stored ∪ blockZero key)
                   :: List.map (fillBlock key) rest)), true).
Proof. unfold GetOk. by intros ->. Qed.

Lemma ifGetOk_region_omitted d field :
  ifGetOk d "output_location"
    (λ v, l ← assertSlice v; expandAssociationOutputLocation l) = Ok field →
  regionOmitted d field.
Proof.
  intros H stored rest Hstored Hregion. unfold ifGetOk in H.
  rewrite (GetOk_stored_block _ _ _ _ Hstored) in H. cbn in H.
  apply result_bind_Ok in H as (bucket & _ & H).
  apply result_bind_Ok in H as (prefix & _ & H).
  injection H as <-. eexists. split; [reflexivity|]. cbn.
  destruct Hregion as [Hnone|Hempty].
  - by rewrite (lookup_union_r _ _ _ Hnone).
  - by rewrite (lookup_union_Some_l _ _ _ _ Hempty).
Qed.

Section requests.

Variable expandTargets : option (list iface) → result (option (list Target)).

(** C3: in the create request and in the update request every top-level
    optional field that is unset in the resource data the handler reads
    stays nil, and the region of the output location stays nil when the
    first block has no region. *)
Theorem unset_optional_fields_stay_nil (d : ResourceData) :
  (∀ input, resourceAssociationCreate_input expandTargets d = Ok input →
            createOmitsUnset d input
            ∧ regionOmitted d (cai_OutputLocation input))
  ∧ (∀ input, resourceAssociationUpdate_input expandTargets d = Ok input →
              updateOmitsUnset d input
              ∧ regionOmitted d (uai_OutputLocation input)).
Proof.
  split.
  - intros input H. unfold resourceAssociationCreate_input in H.
    apply result_bind_Ok in H as (name & _ & H). peel_binds H.
    injection H as <-. split.
    + unfold createOmitsUnset.
      cbn -[expandAssociationOutputLocation expandDocumentParameters].
      repeat split; eauto using @ifGetOk_omitted.
    + by apply ifGetOk_region_omitted.
  - intros input H. unfold resourceAssociationUpdate_input in H.
    peel_binds H.
    injection H as <-. split.
    + unfold updateOmitsUnset.
      cbn -[expandAssociationOutputLocation expandDocumentParameters].
      repeat split; eauto using @ifGetOk_omitted.
    + by apply ifGetOk_region_omitted.
Qed.

End requests.

(** ** Lifecycle handlers *)

Ltac run_handler :=
  unfold mbind, M_bind, mret, M_ret, getD, remote, modifyD, liftResult, start;
  cbn.

Ltac destruct_Set_error :=
  match goal with
  | |- context [match (Set_ ?d ?k ?v).2 with Some _ => _ | None => _ end] =>
    destruct (Set_ d k v).2; cbn
  end.

Lemma Set_other d key value k' :
  key ≠ k' → rd_values (Set_ d key value).1 !! k' = rd_values d !! k'.
Proof.
  intros Hne. unfold Set_. destruct value as [v|]; cbn.
  - destruct (Schema key) as [t|]; [|done].
    destruct (hasType t v); [|done]. cbn. by rewrite lookup_insert_ne.
  - by rewrite lookup_delete_ne.
Qed.

Lemma Set_string d key s :
  Schema key = Some TypeString →
  rd_values (Set_ d key (Some (IString s))).1 !! key = Some (IString s).
Proof. intros Hk. unfold Set_. rewrite Hk. cbn. apply lookup_insert_eq. Qed.

Lemma Set_id d key value : rd_id (Set_ d key value).1 = rd_id d.
Proof.
  unfold Set_. destruct value as [v|]; [|done].
  destruct (Schema key) as [t|]; [|done]. by destruct (hasType t v).
Qed.

(** Look a key up after a run of [d.Set] calls on other keys. *)
Ltac lookup_after_Sets :=
  repeat first [ progress cbn [rd_values st_d snd]
               | rewrite Set_other by done
               | rewrite lookup_insert_ne by done ];
  first [ by apply Set_string | apply lookup_insert_eq ].

Section lifecycle.

Variable tfresource_NotFound : error → bool.
Variable FindAssociationById : SSM → string → error + AssociationDescription.
Variable waitAssociationSuccess :
  SSM → string → Z → error + AssociationDescription.
Variable expandTargets : option (list iface) → result (option (list Target)).
Variable flattenParameters :
  option (gmap string (list (option string))) → iface.
Variable flattenTargets : option (list Target) → iface.

Local Abbreviation Read :=
  (resourceAssociationRead tfresource_NotFound FindAssociationById
     flattenParameters flattenTargets).
Local Abbreviation Create :=
  (resourceAssociationCreate tfresource_NotFound FindAssociationById
     waitAssociationSuccess expandTargets flattenParameters flattenTargets).

(** C1: when the lookup of the association reports not-found, a read of a
    resource that is not new clears the identifier and returns no
    diagnostic, and a read of a new resource returns an error and leaves the
    resource data as it was. *)
Theorem read_not_found (meta : AWSClient) (d : ResourceData) (err : error) :
  FindAssociationById (SSMConn meta) (Id d) = inl err →
  tfresource_NotFound err = true →
  (IsNewResource d = false →
   Read meta (start d)
   = (Ok [], {| st_d := SetId d "";
                st_calls := [CallFindAssociationById (Id d)] |})
   ∧ Id (SetId d "") = "")
  ∧ (IsNewResource d = true →
     ∃ diags, Read meta (start d)
              = (Ok diags, {| st_d := d;
                              st_calls := [CallFindAssociationById (Id d)] |})
              ∧ Diagnostics_HasError diags = true).
Proof.
  intros Hfind Hnf. unfold resourceAssociationRead. run_handler.
  rewrite Hfind, Hnf. split; intros ->; cbn.
  - done.
  - eexists. split; [reflexivity|]. done.
Qed.

(** A read never panics and issues exactly one lookup. *)
Lemma read_outcome (meta : AWSClient) (st : St) :
  ∃ diags d',
    Read meta st
    = (Ok diags,
       {| st_d := d';
          st_calls := (st_calls st
                       ++ [CallFindAssociationById (Id (st_d st))])%list |}).
Proof.
  unfold resourceAssociationRead. run_handler.
  destruct (FindAssociationById _ _) as [err|association].
  - destruct (negb _ && _); cbn; eauto.
  - unfold d_Set. cbn.
    repeat destruct_Set_error; eauto.
Qed.

(** C8: when the association is found, the read leaves in [arn] the string
    made of the client's partition, the service name ssm, the client's
    region and account id, and association/ followed by the association
    identifier. *)
Theorem read_sets_arn (meta : AWSClient) (d : ResourceData)
    (association : AssociationDescription) :
  FindAssociationById (SSMConn meta) (Id d) = inr association →
  ∃ diags st',
    Read meta (start d) = (Ok diags, st')
    ∧ rd_values (st_d st') !! "arn"
      = Some (IString ("arn:" ++ Partition meta ++ ":" ++ "ssm" ++ ":"
                       ++ Region meta ++ ":" ++ AccountID meta ++ ":"
                       ++ "association/"
                       ++ aws_StringValue (ad_AssociationId association))).
Proof.
  intros Hfind. unfold resourceAssociationRead. run_handler. rewrite Hfind.
  unfold d_Set. cbn.
  repeat destruct_Set_error;
    (eexists _, _; split; [reflexivity|]; lookup_after_Sets).
Qed.

(** Seen from the outcome alone: a read that reports no error and leaves an
    identifier has found the association, so it has set [arn]. *)
Lemma read_without_error_sets_arn (meta : AWSClient) (d : ResourceData)
    (diags : Diagnostics) (st' : St) :
  Read meta (start d) = (Ok diags, st') →
  Diagnostics_HasError diags = false →
  Id (st_d st') ≠ "" →
  ∃ association,
    FindAssociationById (SSMConn meta) (Id d) = inr association
    ∧ rd_values (st_d st') !! "arn"
      = Some (IString (associationARN meta association)).
Proof.
  destruct (FindAssociationById (SSMConn meta) (Id d))
    as [err|association] eqn:Hfind.
  - unfold resourceAssociationRead. run_handler. rewrite Hfind.
    destruct (negb _ && _); cbn; intros [= <- <-]; cbn; done.
  - intros Hrun _ _. exists association. split; [done|].
    revert Hrun. unfold resourceAssociationRead. run_handler. rewrite Hfind.
    unfold d_Set. cbn.
    repeat destruct_Set_error; intros [= <- <-]; lookup_after_Sets.
Qed.

(** C4: when the remote delete fails with an error whose code says the
    association does not exist, the delete returns no diagnostic; any other
    failure of the remote delete is returned as an error. *)
Theorem delete_idempotent (meta : AWSClient) (d : ResourceData) (err : error) :
  DeleteAssociationWithContext (SSMConn meta)
    {| dai_AssociationId := aws_String (Id d) |} = Some err →
  (tfawserr_ErrCodeContains err ssm_ErrCodeAssociationDoesNotExist = true →
   (resourceAssociationDelete meta (start d)).1 = Ok [])
  ∧ (tfawserr_ErrCodeContains err ssm_ErrCodeAssociationDoesNotExist = false →
     ∃ diags, (resourceAssociationDelete meta (start d)).1 = Ok diags
              ∧ Diagnostics_HasError diags = true).
Proof.
  intros Hdel. unfold resourceAssociationDelete. run_handler. rewrite Hdel.
  split; intros ->; cbn; [done|]. eexists. by split.
Qed.

(** C10: when the remote create succeeds with a nil description, the create
    returns an error, issues no further call and leaves the resource data,
    identifier included, as it was; and whenever a create changes the
    identifier, the remote create has answered with a description. *)
Theorem create_nil_description (meta : AWSClient) (d : ResourceData) :
  (∀ input resp,
     resourceAssociationCreate_input expandTargets d = Ok input →
     CreateAssociationWithContext (SSMConn meta) input = inr resp →
     cao_AssociationDescription resp = None →
     ∃ diags,
       Create meta (start d)
       = (Ok diags, {| st_d := d;
                       st_calls := [CallCreateAssociation input] |})
       ∧ Diagnostics_HasError diags = true)
  ∧ (Id (st_d (Create meta (start d)).2) ≠ Id d →
     ∃ input resp description,
       resourceAssociationCreate_input expandTargets d = Ok input
       ∧ CreateAssociationWithContext (SSMConn meta) input = inr resp
       ∧ cao_AssociationDescription resp = Some description).
Proof.
  split.
  - intros input resp Hin Hresp Hnil.
    unfold resourceAssociationCreate. run_handler.
    rewrite Hin. cbn. rewrite Hresp, Hnil. cbn. eexists. by split.
  - unfold resourceAssociationCreate. run_handler.
    destruct (resourceAssociationCreate_input _ _) as [input|p]; cbn; [|done].
    destruct (CreateAssociationWithContext _ _) as [err|resp] eqn:Hresp;
      cbn; [done|].
    destruct (cao_AssociationDescription resp) as [description|] eqn:Hdesc;
      cbn; [|done].
    intros _. by exists input, resp, description.
Qed.

(** C2: when [wait_for_success_timeout_seconds] is absent or zero, the
    create issues no status poll and, once the request is built, returns;
    a status poll appears among the calls only for a non-zero configured
    timeout, with that timeout as its duration. *)
Theorem create_polls_only_on_nonzero_timeout (meta : AWSClient)
    (d : ResourceData) :
  ((absent d "wait_for_success_timeout_seconds"
    ∨ rd_values d !! "wait_for_success_timeout_seconds" = Some (IInt 0)) →
   Forall (λ c, isStatusPoll c = false) (st_calls (Create meta (start d)).2)
   ∧ ∀ input, resourceAssociationCreate_input expandTargets d = Ok input →
              ∃ diags, (Create meta (start d)).1 = Ok diags)
  ∧ (∀ id timeout,
       CallWaitAssociationSuccess id timeout
         ∈ st_calls (Create meta (start d)).2 →
       ∃ n, rd_values d !! "wait_for_success_timeout_seconds" = Some (IInt n)
            ∧ n ≠ 0%Z ∧ timeout = secondsDuration n).
Proof.
  unfold resourceAssociationCreate. run_handler.
  destruct (resourceAssociationCreate_input _ _) as [input|p]; cbn.
  2:{ split; [intros _; split; [constructor|by intros ? [=]]|].
      intros id timeout Hin. by apply elem_of_nil in Hin. }
  destruct (CreateAssociationWithContext _ _) as [err|resp]; cbn.
  { split; [intros _; split; [by repeat constructor|eauto]|].
    intros id timeout [[=]|Hin%elem_of_nil]%elem_of_cons. done. }
  destruct (cao_AssociationDescription resp) as [description|]; cbn.
  2:{ split; [intros _; split; [by repeat constructor|eauto]|].
      intros id timeout [[=]|Hin%elem_of_nil]%elem_of_cons. done. }
  unfold GetOk, absent. cbn.
  destruct (rd_values d !! "wait_for_success_timeout_seconds") as [v|] eqn:Hv;
    cbn.
  2:{ match goal with
      | |- context [Read meta ?st] =>
        destruct (read_outcome meta st) as (diags & d' & ->)
      end. cbn.
      split; [intros _; split; [by repeat constructor|eauto]|].
      intros id timeout Hin.
      repeat (apply elem_of_cons in Hin as [[=]|Hin]).
      by apply elem_of_nil in Hin. }
  rewrite isZero_normalizeValue.
  destruct (isZero v) eqn:Hz; cbn.
  { match goal with
    | |- context [Read meta ?st] =>
      destruct (read_outcome meta st) as (diags & d' & ->)
    end. cbn.
    split; [intros _; split; [by repeat constructor|eauto]|].
    intros id timeout Hin.
    repeat (apply elem_of_cons in Hin as [[=]|Hin]).
    by apply elem_of_nil in Hin. }
  split.
  { intros [[=]|[= ->]]. discriminate. }
  destruct v as [| | |n| |]; cbn;
    try (intros id timeout [[=]|Hin%elem_of_nil]%elem_of_cons; done).
  assert (n ≠ 0%Z) as Hn.
  { intros ->. discriminate. }
  destruct (waitAssociationSuccess _ _ _) as [err|found]; cbn.
  - intros id timeout Hin.
    apply elem_of_cons in Hin as [[=]|Hin].
    apply elem_of_cons in Hin as [[= -> ->]|Hin%elem_of_nil]; [eauto|done].
  - match goal with
    | |- context [Read meta ?st] =>
      destruct (read_outcome meta st) as (diags & d' & ->)
    end. cbn.
    intros id timeout Hin.
    apply elem_of_cons in Hin as [[=]|Hin].
    apply elem_of_cons in Hin as [[= -> ->]|Hin]; [eauto|].
    apply elem_of_cons in Hin as [[=]|Hin%elem_of_nil]. done.
Qed.

End lifecycle.

(** ** The handlers on sample data *)

Local Abbreviation sampleRead :=
  (resourceAssociationRead sampleNotFound sampleFind sampleFlattenParameters
     sampleFlattenTargets).
Local Abbreviation sampleCreate :=
  (resourceAssociationCreate sampleNotFound sampleFind sampleWait
     sampleExpandTargets sampleFlattenParameters sampleFlattenTargets).

Lemma read_not_found_witness :
  sampleFind (SSMConn (sampleMeta sampleConn)) (Id sampleGone)
  = inl sampleNotFoundError
  ∧ sampleNotFound sampleNotFoundError = true
  ∧ (IsNewResource sampleGone = false →
     sampleRead (sampleMeta sampleConn) (start sampleGone)
     = (Ok [], {| st_d := SetId sampleGone "";
                  st_calls := [CallFindAssociationById (Id sampleGone)] |})
     ∧ Id (SetId sampleGone "") = "")
  ∧ (IsNewResource sampleGone = true →
     ∃ diags,
       sampleRead (sampleMeta sampleConn) (start sampleGone)
       = (Ok diags, {| st_d := sampleGone;
                       st_calls := [CallFindAssociationById (Id sampleGone)] |})
       ∧ Diagnostics_HasError diags = true).
Proof.
  split; [reflexivity|]. split; [reflexivity|].
  apply (read_not_found sampleNotFound sampleFind sampleFlattenParameters
           sampleFlattenTargets (sampleMeta sampleConn) sampleGone
           sampleNotFoundError); reflexivity.
Defined.

(** During creation the same not-found answer is an error. *)
Example read_not_found_new_resource :
  (sampleRead (sampleMeta sampleConn)
     (start {| rd_values := sampleValues; rd_id := "assoc-gone";
               rd_isNew := true |})).1
  = Ok [{| diag_Severity := SeverityError;
           diag_Summary :=
             "reading SSM Association (assoc-gone): couldn't find resource" |}].
Proof. vm_compute. reflexivity. Qed.

Lemma read_sets_arn_witness :
  sampleFind (SSMConn (sampleMeta sampleConn)) (Id sampleKnown)
  = inr sampleAssociation
  ∧ ∃ diags st',
      sampleRead (sampleMeta sampleConn) (start sampleKnown) = (Ok diags, st')
      ∧ rd_values (st_d st') !! "arn"
        = Some (IString "arn:aws:ssm:eu-west-1:123456789012:association/assoc-1").
Proof.
  split; [reflexivity|].
  apply (read_sets_arn sampleNotFound sampleFind sampleFlattenParameters
           sampleFlattenTargets (sampleMeta sampleConn) sampleKnown
           sampleAssociation).
  reflexivity.
Defined.

Lemma delete_idempotent_witness :
  DeleteAssociationWithContext (SSMConn (sampleMeta sampleConn))
    {| dai_AssociationId := aws_String (Id sampleGone) |}
  = Some sampleDoesNotExistError
  ∧ (tfawserr_ErrCodeContains sampleDoesNotExistError
       ssm_ErrCodeAssociationDoesNotExist = true →
     (resourceAssociationDelete (sampleMeta sampleConn) (start sampleGone)).1
     = Ok [])
  ∧ (tfawserr_ErrCodeContains sampleDoesNotExistError
       ssm_ErrCodeAssociationDoesNotExist = false →
     ∃ diags,
       (resourceAssociationDelete (sampleMeta sampleConn) (start sampleGone)).1
       = Ok diags
       ∧ Diagnostics_HasError diags = true).
Proof.
  split; [reflexivity|].
  apply (delete_idempotent (sampleMeta sampleConn) sampleGone
           sampleDoesNotExistError).
  reflexivity.
Defined.

Example delete_gone_run :
  tfawserr_ErrCodeContains sampleDoesNotExistError
    ssm_ErrCodeAssociationDoesNotExist = true
  ∧ resourceAssociationDelete (sampleMeta sampleConn) (start sampleGone)
    = (Ok [], {| st_d := sampleGone;
                 st_calls := [CallDeleteAssociation
                                {| dai_AssociationId := Some "assoc-gone" |}] |}).
Proof. split; vm_compute; reflexivity. Qed.

Example delete_other_failure_run :
  tfawserr_ErrCodeContains sampleThrottlingError
    ssm_ErrCodeAssociationDoesNotExist = false
  ∧ (resourceAssociationDelete
       (sampleMeta {| CreateAssociationWithContext :=
                        CreateAssociationWithContext sampleConn;
                      UpdateAssociationWithContext := λ _, None;
                      DeleteAssociationWithContext :=
                        λ _, Some sampleThrottlingError |})
       (start sampleGone)).1
    = Ok [{| diag_Severity := SeverityError;
             diag_Summary :=
               "deleting SSM association: ThrottlingException: rate exceeded" |}].
Proof. split; vm_compute; reflexivity. Qed.

Lemma create_nil_description_witness :
  resourceAssociationCreate_input sampleExpandTargets (sampleNew None)
  = Ok sampleCreateInput
  ∧ ∃ diags,
      sampleCreate (sampleMeta sampleNilDescriptionConn)
        (start (sampleNew None))
      = (Ok diags, {| st_d := sampleNew None;
                      st_calls := [CallCreateAssociation sampleCreateInput] |})
      ∧ Diagnostics_HasError diags = true.
Proof.
  split; [by vm_compute|].
  apply (proj1 (create_nil_description sampleNotFound sampleFind sampleWait
                  sampleExpandTargets sampleFlattenParameters
                  sampleFlattenTargets (sampleMeta sampleNilDescriptionConn)
                  (sampleNew None))
           sampleCreateInput {| cao_AssociationDescription := None |});
    by vm_compute.
Defined.

Lemma create_polls_only_on_nonzero_timeout_witness :
  rd_values (sampleNew (Some 0%Z)) !! "wait_for_success_timeout_seconds"
  = Some (IInt 0)
  ∧ Forall (λ c, isStatusPoll c = false)
      (st_calls (sampleCreate (sampleMeta sampleConn)
                   (start (sampleNew (Some 0%Z)))).2)
  ∧ ∀ input,
      resourceAssociationCreate_input sampleExpandTargets
        (sampleNew (Some 0%Z)) = Ok input →
      ∃ diags, (sampleCreate (sampleMeta sampleConn)
                  (start (sampleNew (Some 0%Z)))).1 = Ok diags.
Proof.
  split; [by vm_compute|].
  apply (proj1 (create_polls_only_on_nonzero_timeout sampleNotFound sampleFind
                  sampleWait sampleExpandTargets sampleFlattenParameters
                  sampleFlattenTargets (sampleMeta sampleConn)
                  (sampleNew (Some 0%Z)))).
  right. by vm_compute.
Defined.

Example create_without_timeout_calls :
  st_calls (sampleCreate (sampleMeta sampleConn) (start (sampleNew None))).2
  = [CallCreateAssociation sampleCreateInput;
     CallFindAssociationById "assoc-1"]
  ∧ st_calls (sampleCreate (sampleMeta sampleConn)
                (start (sampleNew (Some 0%Z)))).2
    = [CallCreateAssociation sampleCreateInput;
       CallFindAssociationById "assoc-1"].
Proof. split; vm_compute; reflexivity. Qed.

Example create_with_timeout_calls :
  st_calls (sampleCreate (sampleMeta sampleConn)
              (start (sampleNew (Some 30%Z)))).2
  = [CallCreateAssociation sampleCreateInput;
     CallWaitAssociationSuccess "assoc-1" 30000000000;
     CallFindAssociationById "assoc-1"].
Proof. vm_compute. reflexivity. Qed.

Lemma unset_optional_fields_stay_nil_witness :
  resourceAssociationCreate_input sampleExpandTargets sampleBucketOnlyData
  = Ok {| cai_ApplyOnlyAtCronInterval := None;
          cai_AssociationName := None;
          cai_AutomationTargetParameterName := None;
          cai_ComplianceSeverity := None;
          cai_DocumentVersion := None;
          cai_InstanceId := None;
          cai_MaxConcurrency := None;
          cai_MaxErrors := None;
          cai_Name := Some "AWS-RunPatchBaseline";
          cai_OutputLocation := Some sampleBucketOnlyLocation;
          cai_Parameters := None;
          cai_ScheduleExpression := None;
          cai_Targets := None |}
  ∧ createOmitsUnset sampleBucketOnlyData
      {| cai_ApplyOnlyAtCronInterval := None;
         cai_AssociationName := None;
         cai_AutomationTargetParameterName := None;
         cai_ComplianceSeverity := None;
         cai_DocumentVersion := None;
         cai_InstanceId := None;
         cai_MaxConcurrency := None;
         cai_MaxErrors := None;
         cai_Name := Some "AWS-RunPatchBaseline";
         cai_OutputLocation := Some sampleBucketOnlyLocation;
         cai_Parameters := None;
         cai_ScheduleExpression := None;
         cai_Targets := None |}
  ∧ regionOmitted sampleBucketOnlyData (Some sampleBucketOnlyLocation)
  ∧ resourceAssociationUpdate_input sampleExpandTargets sampleKnown
    = Ok sampleUpdateInput
  ∧ updateOmitsUnset sampleKnown sampleUpdateInput.
Proof.
  pose proof (unset_optional_fields_stay_nil sampleExpandTargets
                sampleBucketOnlyData) as [Hcreate _].
  pose proof (unset_optional_fields_stay_nil sampleExpandTargets
                sampleKnown) as [_ Hupdate].
  split; [by vm_compute|].
  split; [apply (Hcreate _); by vm_compute|].
  split; [apply (Hcreate _ ltac:(by vm_compute))|].
  split; [by vm_compute|]. apply (Hupdate _). by vm_compute.
Defined.

(** C3 fails as it stands, in two places.  A configuration block that names
    only the bucket reaches the handler with every key of its schema, so
    the key prefix, absent from the configuration, is sent as the empty
    string.  And an update reads the configuration merged with the prior
    state, so a computed field the configuration leaves out is sent with
    the value of the state. *)
Lemma absent_key_prefix_is_sent_empty :
  (rd_values sampleBucketOnlyData !! "output_location"
   = Some (ISlice (Some [IMap sampleBucketOnly]))
   ∧ sampleBucketOnly !! "s3_key_prefix" = None
   ∧ ∃ input s3,
       resourceAssociationCreate_input sampleExpandTargets
         sampleBucketOnlyData = Ok input
       ∧ cai_OutputLocation input = Some {| S3Location := Some s3 |}
       ∧ OutputS3KeyPrefix s3 = Some ""
       ∧ OutputS3KeyPrefix s3 ≠ None)
  ∧ (sampleValues !! "document_version" = None
     ∧ ∃ input,
         resourceAssociationUpdate_input sampleExpandTargets
           (plannedData sampleValues samplePriorState "assoc-1") = Ok input
         ∧ uai_DocumentVersion input = Some "$DEFAULT"
         ∧ uai_DocumentVersion input ≠ None).
Proof.
  split.
  - split; [by vm_compute|]. split; [by vm_compute|].
    eexists _, _. split; [by vm_compute|]. split; [reflexivity|].
    split; [reflexivity|discriminate].
  - split; [by vm_compute|].
    eexists. split; [by vm_compute|]. split; [reflexivity|discriminate].
Qed.

(** A field that is only optional is not read from the prior state: left
    out of the configuration, it is left out of the update. *)
Example update_drops_unconfigured_optional :
  sampleValues !! "schedule_expression" = None
  ∧ samplePriorState !! "schedule_expression" = Some (IString "rate(1 day)")
  ∧ ∃ input,
      resourceAssociationUpdate_input sampleExpandTargets
        (plannedData sampleValues samplePriorState "assoc-1") = Ok input
      ∧ uai_ScheduleExpression input = None.
Proof.
  split; [by vm_compute|]. split; [by vm_compute|].
  eexists. split; [by vm_compute|]. reflexivity.
Qed.

(** A field set to its zero value is left out of the request like an absent
    one. *)
Example zero_valued_field_left_out :
  resourceAssociationCreate_input sampleExpandTargets
    {| rd_values := <["association_name" := IString ""]>
                      (<["apply_only_at_cron_interval" := IBool false]>
                         sampleValues);
       rd_id := ""; rd_isNew := true |}
  = Ok sampleCreateInput.
Proof. vm_compute. reflexivity. Qed.

(** Inside the output location, an empty region is left out, and a key
    prefix the block holds is sent as it is, the empty string included. *)
Example empty_optionals_in_block :
  expandAssociationOutputLocation (Some [IMap sampleEmptyOptionals])
  = Ok (Some {| S3Location := Some
          {| OutputS3BucketName := Some "logs";
             OutputS3KeyPrefix := Some "";
             OutputS3Region := None |} |}).
Proof. vm_compute. reflexivity. Qed.

(** * Further properties *)

(** ** Output location *)

(** X1: when the expander returns for a list whose first element is a block,
    the block holds a string bucket name, which is sent; the key prefix is
    sent exactly when the block holds it as a string, the empty string
    included; the region is sent exactly when the block holds it as a
    non-empty string. *)
Theorem expand_block_fields (cfg : gmap string iface) (rest : list iface)
    (out : option InstanceAssociationOutputLocation) :
  expandAssociationOutputLocation (Some (IMap cfg :: rest)) = Ok out →
  ∃ b s3,
    cfg !! "s3_bucket_name" = Some (IString b)
    ∧ out = Some {| S3Location := Some s3 |}
    ∧ OutputS3BucketName s3 = Some b
    ∧ (∀ p, OutputS3KeyPrefix s3 = Some p
            ↔ cfg !! "s3_key_prefix" = Some (IString p))
    ∧ (∀ r, OutputS3Region s3 = Some r
            ↔ cfg !! "s3_region" = Some (IString r) ∧ r ≠ "").
Proof.
  rewrite expand_cons_map. unfold mapIndex. intros H.
  apply result_bind_Ok in H as (b & Hb & H).
  apply result_bind_Ok in H as (prefix & Hprefix & H).
  injection H as <-.
  destruct (cfg !! "s3_bucket_name") as [[]|] eqn:Hbucket;
    try discriminate. injection Hb as ->.
  eexists b, _. split; [done|]. split; [reflexivity|]. cbn.
  split; [done|]. split.
  - intros p. destruct (cfg !! "s3_key_prefix") as [v|].
    + destruct v; try discriminate. injection Hprefix as <-.
      unfold aws_String. split; congruence.
    + injection Hprefix as <-. split; discriminate.
  - intros r. destruct (cfg !! "s3_region") as [[| s | | | |]|];
      try (split; [discriminate|intros [[=] _]]).
    destruct (decide (s = "")) as [->|Hne]; unfold aws_String.
    + split; [discriminate|]. intros [[= <-] Hr]. done.
    + split; [intros [= <-]; done|]. by intros [[= <-] _].
Qed.

Lemma expand_block_fields_witness :
  expandAssociationOutputLocation (Some (IMap sampleEmptyOptionals :: []))
  = Ok (Some {| S3Location := Some
          {| OutputS3BucketName := Some "logs";
             OutputS3KeyPrefix := Some "";
             OutputS3Region := None |} |})
  ∧ ∃ b s3,
      sampleEmptyOptionals !! "s3_bucket_name" = Some (IString b)
      ∧ Some {| S3Location := Some
           {| OutputS3BucketName := Some "logs";
              OutputS3KeyPrefix := Some "";
              OutputS3Region := None |} |}
        = Some {| S3Location := Some s3 |}
      ∧ OutputS3BucketName s3 = Some b
      ∧ (∀ p, OutputS3KeyPrefix s3 = Some p
              ↔ sampleEmptyOptionals !! "s3_key_prefix" = Some (IString p))
      ∧ (∀ r, OutputS3Region s3 = Some r
              ↔ sampleEmptyOptionals !! "s3_region" = Some (IString r)
                ∧ r ≠ "").
Proof.
  split; [by vm_compute|].
  apply (expand_block_fields sampleEmptyOptionals []). by vm_compute.
Defined.

(** X2: the expander returns exactly for a nil list and for a list whose
    first element is a block with a string bucket name and, if it holds a
    key prefix, a string one; on the empty list it panics on the index and
    in every other case on a type assertion.  The region never makes it
    panic. *)
Theorem expand_returns_iff (config : option (list iface)) :
  ((∃ out, expandAssociationOutputLocation config = Ok out)
   ↔ config = None
     ∨ ∃ cfg rest b,
         config = Some (IMap cfg :: rest)
         ∧ cfg !! "s3_bucket_name" = Some (IString b)
         ∧ ∀ v, cfg !! "s3_key_prefix" = Some v → isString v = true)
  ∧ (∀ p, expandAssociationOutputLocation config = Panic p →
          (config = Some [] ∧ p = PanicIndexOutOfRange)
          ∨ (config ≠ Some [] ∧ p = PanicTypeAssertion)).
Proof.
  destruct config as [[|first rest]|].
  - split; [split|].
    + intros [out [=]].
    + intros [[=]|(cfg & rest & b & [=] & _)].
    + intros p [= <-]. by left.
  - assert (Hne : Some (first :: rest) ≠ Some []) by done.
    destruct first as [| | | | |cfg]; cbn;
      try (split; [split; [intros [out [=]]
                          |intros [[=]|(c & r & bn & [=] & _)]]
                  |intros p [= <-]; by right]).
    unfold mapIndex.
    destruct (cfg !! "s3_bucket_name") as [[| b | | | |]|] eqn:Hb; cbn;
      try (split; [split; [intros [out [=]]
                          |intros [[=]|(c & r & b' & [= <- <-] & Hb' & _)];
                           congruence]
                  |intros p [= <-]; by right]).
    destruct (cfg !! "s3_key_prefix") as [[| s | | | |]|] eqn:Hp; cbn;
      try (split; [split; [intros [out [=]]
                          |intros [[=]|(c & r & b' & [= <- <-] & _ & Hs)];
                           by specialize (Hs _ Hp)]
                  |intros p [= <-]; by right]).
    + split; [split; [intros _; right|eauto]|intros p [=]].
      exists cfg, rest, b. split; [done|]. split; [done|].
      intros v Hv. rewrite Hp in Hv. by injection Hv as <-.
    + split; [split; [intros _; right|eauto]|intros p [=]].
      exists cfg, rest, b. split; [done|]. split; [done|].
      intros v Hv. by rewrite Hp in Hv.
  - split; [split; [by left|eauto]|intros p [=]].
Qed.

Lemma expand_after_flatten
    (location : option InstanceAssociationOutputLocation) :
  expandAssociationOutputLocation
    (asConfig (flattenAssociationOutputLocation location))
  = Ok (readBack location).
Proof.
  destruct location as [[[s3|]]|]; [|done|done].
  destruct (flatten_item_lookup s3) as (item & -> & Hb & Hp & Hr & _).
  cbn [asConfig option_map List.map]. rewrite expand_cons_map.
  unfold mapIndex. rewrite Hb, Hp, Hr. cbn.
  destruct s3 as [bucket [prefix|] [region|]]; cbn; try done;
    by destruct (decide (region = "")).
Qed.

(** X3: expanding what the flattener gives never panics, whatever the
    location: nil locations come back nil, and a location with an S3 part
    comes back with its key prefix unchanged, an empty region dropped and a
    nil bucket name turned into the empty string. *)
Theorem expand_flatten_total
    (location : option InstanceAssociationOutputLocation) :
  expandAssociationOutputLocation
    (asConfig (flattenAssociationOutputLocation location))
  = Ok (readBack location).
Proof.
  destruct location as [[[s3|]]|]; [|reflexivity|reflexivity].
  destruct (flatten_item_lookup s3) as (item & -> & Hb & Hp & Hr & _).
  cbn [asConfig option_map List.map readBack]. rewrite expand_cons_map.
  unfold mapIndex. rewrite Hb, Hp, Hr. cbn.
  destruct (OutputS3KeyPrefix s3) as [prefix|],
           (OutputS3Region s3) as [region|]; cbn; try reflexivity;
    by destruct (decide (region = "")).
Qed.

(** X4: one pass through flatten and expand settles a location: passing the
    result through flatten and expand again gives the same location. *)
Theorem expand_flatten_settles
    (x y : option InstanceAssociationOutputLocation) :
  expandAssociationOutputLocation
    (asConfig (flattenAssociationOutputLocation x)) = Ok y →
  expandAssociationOutputLocation
    (asConfig (flattenAssociationOutputLocation y)) = Ok y.
Proof.
  rewrite !expand_after_flatten. intros [= <-]. f_equal.
  destruct x as [[[[bucket prefix region]|]]|]; cbn; try done.
  destruct region as [region|]; [|done].
  destruct (decide (region = "")) as [->|Hne]; cbn; [done|].
  by destruct (decide (region = "")).
Qed.

Lemma expand_flatten_settles_witness :
  expandAssociationOutputLocation
    (asConfig (flattenAssociationOutputLocation
                 (Some {| S3Location := Some
                    {| OutputS3BucketName := None;
                       OutputS3KeyPrefix := Some "ssm/";
                       OutputS3Region := Some "" |} |})))
  = Ok (Some {| S3Location := Some
          {| OutputS3BucketName := Some "";
             OutputS3KeyPrefix := Some "ssm/";
             OutputS3Region := None |} |})
  ∧ expandAssociationOutputLocation
      (asConfig (flattenAssociationOutputLocation
                   (Some {| S3Location := Some
                      {| OutputS3BucketName := Some "";
                         OutputS3KeyPrefix := Some "ssm/";
                         OutputS3Region := None |} |})))
    = Ok (Some {| S3Location := Some
            {| OutputS3BucketName := Some "";
               OutputS3KeyPrefix := Some "ssm/";
               OutputS3Region := None |} |}).
Proof.
  split; [by vm_compute|].
  apply (expand_flatten_settles
           (Some {| S3Location := Some
              {| OutputS3BucketName := None;
                 OutputS3KeyPrefix := Some "ssm/";
                 OutputS3Region := Some "" |} |})).
  by vm_compute.
Defined.

(** X5: a well-formed block survives the trip through the request: expanding
    it and flattening the result gives back a one-element list holding the
    same block. *)
Theorem flatten_expand_block (cfg : gmap string iface) :
  wellFormedBlock cfg →
  ∃ out, expandAssociationOutputLocation (Some [IMap cfg]) = Ok out
         ∧ flattenAssociationOutputLocation out = Some [cfg].
Proof.
  intros [[b Hb] Hwf].
  assert (Hprefix : cfg !! "s3_key_prefix" = None
                    ∨ ∃ p, cfg !! "s3_key_prefix" = Some (IString p)).
  { destruct (cfg !! "s3_key_prefix") as [v|] eqn:Hp; [right|by left].
    destruct (Hwf _ _ Hp) as (_ & s & -> & _). eauto. }
  assert (Hregion : cfg !! "s3_region" = None
                    ∨ ∃ r, cfg !! "s3_region" = Some (IString r) ∧ r ≠ "").
  { destruct (cfg !! "s3_region") as [v|] eqn:Hr; [right|by left].
    destruct (Hwf _ _ Hr) as (_ & s & -> & Hs). eauto. }
  assert (Hother : ∀ k, k ∉ outputLocationKeys → cfg !! k = None).
  { intros k Hk. destruct (cfg !! k) as [v|] eqn:Hv; [|done].
    by destruct (Hwf _ _ Hv) as [? _]. }
  rewrite expand_cons_map. unfold mapIndex. rewrite Hb. cbn.
  assert (Hitem : ∀ (s3 : S3OutputLocation),
            OutputS3BucketName s3 = Some b →
            IString <$> OutputS3KeyPrefix s3 = cfg !! "s3_key_prefix" →
            IString <$> OutputS3Region s3 = cfg !! "s3_region" →
            flattenAssociationOutputLocation
              (Some {| S3Location := Some s3 |}) = Some [cfg]).
  { intros s3 Hs3b Hs3p Hs3r.
    destruct (flatten_item_lookup s3) as (item & -> & Ib & Ip & Ir & Ikeys).
    do 2 f_equal. apply map_eq. intros k.
    destruct (decide (k = "s3_bucket_name")) as [->|Hk1];
      [by rewrite Ib, Hs3b, Hb|].
    destruct (decide (k = "s3_key_prefix")) as [->|Hk2];
      [by rewrite Ip, Hs3p|].
    destruct (decide (k = "s3_region")) as [->|Hk3];
      [by rewrite Ir, Hs3r|].
    assert (k ∉ outputLocationKeys) as Hk.
    { unfold outputLocationKeys. intros Hin.
      repeat (apply elem_of_cons in Hin as [?|Hin]; [done|]).
      by apply elem_of_nil in Hin. }
    rewrite (Hother k Hk). destruct (item !! k) as [v|] eqn:Hv; [|done].
    destruct Hk. apply Ikeys. eauto. }
  destruct Hprefix as [Hp|[p Hp]], Hregion as [Hr|(r & Hr & Hne)];
    rewrite Hp, Hr; cbn;
    try (destruct (decide (r = "")) as [?|_]; [done|]);
    (eexists; split; [reflexivity|]; apply Hitem; cbn; by rewrite ?Hp, ?Hr).
Qed.

Lemma flatten_expand_block_witness :
  wellFormedBlock sampleFullBlock
  ∧ ∃ out, expandAssociationOutputLocation (Some [IMap sampleFullBlock])
           = Ok out
           ∧ flattenAssociationOutputLocation out = Some [sampleFullBlock].
Proof.
  assert (Hwf : wellFormedBlock sampleFullBlock).
  { split; [by exists "logs"|]. intros k v Hk. unfold sampleFullBlock in Hk.
    unfold outputLocationKeys.
    apply lookup_insert_Some in Hk as [[<- <-]|[_ Hk]];
      [split; [set_solver|by eexists]|].
    apply lookup_insert_Some in Hk as [[<- <-]|[_ Hk]];
      [split; [set_solver|by eexists]|].
    apply lookup_insert_Some in Hk as [[<- <-]|[_ Hk]];
      [split; [set_solver|by eexists]|].
    by rewrite lookup_empty in Hk. }
  split; [exact Hwf|]. apply (flatten_expand_block sampleFullBlock Hwf).
Defined.

(** ** Document parameters *)

Lemma expandDocumentParameters_loop_Panic entries p :
  foldl (λ (acc : result (gmap string (list (option string))))
           (kv : string * iface),
           docParams ← acc;
           s ← assertString kv.2;
           Ok (<[kv.1 := [aws_String s]]> docParams))
        (Panic p) entries
  = Panic p.
Proof. induction entries as [|kv entries IH]; [done|]. cbn. apply IH. Qed.

(** Whatever is already collected, one value that is not a string makes the
    loop panic on the type assertion. *)
Lemma expandDocumentParameters_loop_non_string (entries : list (string * iface)) :
  ∀ docParams,
    (∃ k v, (k, v) ∈ entries ∧ isString v = false) →
    expandDocumentParameters_loop entries docParams = Panic PanicTypeAssertion.
Proof.
  induction entries as [|[k0 v0] entries IH]; intros docParams (k & v & Hin & Hv).
  - by apply elem_of_nil in Hin.
  - destruct (isString v0) eqn:Hv0.
    + destruct v0; try discriminate.
      rewrite expandDocumentParameters_loop_cons. apply IH.
      apply elem_of_cons in Hin as [[= -> ->]|Hin]; [discriminate|eauto].
    + unfold expandDocumentParameters_loop. cbn.
      destruct v0; try discriminate; cbn;
        apply expandDocumentParameters_loop_Panic.
Qed.

Lemma isString_spec v : isString v = true ↔ ∃ s, v = IString s.
Proof.
  destruct v; cbn; split; try discriminate; eauto;
    intros [? [=]].
Qed.

(** X6: in whatever order the map is iterated, [expandDocumentParameters]
    panics exactly when some value is not a string, and then on the type
    assertion; it has no other way to fail. *)
Theorem expandDocumentParameters_panics_iff
    (params : gmap string iface) (entries : list (string * iface)) :
  entries ≡ₚ map_to_list params →
  (expandDocumentParameters_loop entries ∅ = Panic PanicTypeAssertion
   ↔ ∃ k v, params !! k = Some v ∧ isString v = false)
  ∧ (∀ p, expandDocumentParameters_loop entries ∅ = Panic p →
          p = PanicTypeAssertion).
Proof.
  intros Hperm.
  assert (Hsome : (∃ k v, params !! k = Some v ∧ isString v = false) →
            expandDocumentParameters_loop entries ∅ = Panic PanicTypeAssertion).
  { intros (k & v & Hk & Hv). apply expandDocumentParameters_loop_non_string.
    exists k, v. split; [|done]. rewrite Hperm.
    by apply elem_of_map_to_list. }
  assert (Hnone : (∀ k v, params !! k = Some v → isString v = true) →
            ∃ r, expandDocumentParameters_loop entries ∅ = Ok r).
  { intros Hall.
    destruct (expandDocumentParameters_loop_lookup entries ∅)
      as (r & Hr & _).
    - rewrite Hperm. apply NoDup_fst_map_to_list.
    - intros k v Hkv. rewrite Hperm in Hkv.
      apply elem_of_map_to_list in Hkv. by apply isString_spec, (Hall k).
    - eauto. }
  assert (Hdec : (∃ k v, params !! k = Some v ∧ isString v = false)
                 ∨ ∀ k v, params !! k = Some v → isString v = true).
  { destruct (decide (Forall (λ kv, isString kv.2 = true) (map_to_list params)))
      as [Hall|Hex].
    - right. intros k v Hk. rewrite Forall_forall in Hall.
      apply (Hall (k, v)). by apply elem_of_map_to_list.
    - left. apply not_Forall_Exists in Hex; [|apply _].
      apply Exists_exists in Hex as ([k v] & Hin & Hv).
      exists k, v. split; [by apply elem_of_map_to_list|].
      cbn in Hv. by destruct (isString v). }
  split; [split; [|exact Hsome]|].
  - intros Hpanic. destruct Hdec as [?|Hall]; [done|].
    destruct (Hnone Hall) as [r Hr]. congruence.
  - intros p Hp. destruct Hdec as [Hex|Hall].
    + rewrite (Hsome Hex) in Hp. congruence.
    + destruct (Hnone Hall) as [r Hr]. congruence.
Qed.

Lemma expandDocumentParameters_panics_iff_witness :
  [("Mode", IInt 420)] ≡ₚ map_to_list (<["Mode" := IInt 420]> (∅ : gmap string iface))
  ∧ expandDocumentParameters_loop [("Mode", IInt 420)] ∅
    = Panic PanicTypeAssertion.
Proof.
  assert (Hperm : [("Mode", IInt 420)]
                  ≡ₚ map_to_list (<["Mode" := IInt 420]> (∅ : gmap string iface))).
  { by rewrite insert_empty, map_to_list_singleton. }
  split; [exact Hperm|].
  apply (expandDocumentParameters_panics_iff _ _ Hperm).
  exists "Mode", (IInt 420). split; [by vm_compute|done].
Defined.

Lemma expandDocumentParameters_strings (m : gmap string string) :
  expandDocumentParameters (IString <$> m) = Ok ((λ s, [Some s]) <$> m).
Proof.
  unfold expandDocumentParameters.
  destruct (expandDocumentParameters_loop_lookup
              (map_to_list (IString <$> m)) ∅) as (r & -> & Hin & Hout).
  - apply NoDup_fst_map_to_list.
  - intros k v Hkv%elem_of_map_to_list.
    rewrite lookup_fmap in Hkv. destruct (m !! k); [|done].
    injection Hkv as <-. eauto.
  - f_equal. apply map_eq. intros k. rewrite lookup_fmap.
    destruct (m !! k) as [s|] eqn:Hk; cbn.
    + apply (Hin k (IString s)). apply elem_of_map_to_list.
      by rewrite lookup_fmap, Hk.
    + rewrite Hout; [by rewrite lookup_empty|].
      intros [[k' v] [-> Hkv%elem_of_map_to_list]]%list_elem_of_fmap.
      rewrite lookup_fmap in Hkv. cbn in *. by rewrite Hk in Hkv.
Qed.

(** X7: [expandDocumentParameters] loses nothing: two string maps that
    expand to the same request parameters are the same map. *)
Theorem expandDocumentParameters_injective (m1 m2 : gmap string string) :
  expandDocumentParameters (IString <$> m1)
  = expandDocumentParameters (IString <$> m2) →
  m1 = m2.
Proof.
  rewrite !expandDocumentParameters_strings. intros [= Heq].
  apply map_eq. intros k.
  assert (Hk : ((λ s : string, [Some s]) <$> m1) !! k
               = ((λ s : string, [Some s]) <$> m2) !! k) by by rewrite Heq.
  rewrite !lookup_fmap in Hk.
  destruct (m1 !! k), (m2 !! k); cbn in Hk; congruence.
Qed.

Lemma expandDocumentParameters_injective_witness :
  expandDocumentParameters
    (IString <$> ({["Mode" := "0644"]} : gmap string string))
  = expandDocumentParameters
      (IString <$> ({["Mode" := "0644"]} : gmap string string))
  ∧ ({["Mode" := "0644"]} : gmap string string) = {["Mode" := "0644"]}.
Proof.
  split; [reflexivity|].
  apply (expandDocumentParameters_injective {["Mode" := "0644"]}
           {["Mode" := "0644"]}).
  reflexivity.
Defined.

(** ** Requests *)

Lemma ifGetOk_set {A} d key v (set : iface → result (option A)) :
  GetOk d key = (v, true) → ifGetOk d key set = set v.
Proof. unfold ifGetOk. by intros ->. Qed.

Lemma GetOk_Get d key v ok : GetOk d key = (v, ok) → Get d key = v.
Proof.
  unfold GetOk, Get. destruct (rd_values d !! key); by intros [= <- _].
Qed.

Lemma ifGetOk_copied d key field :
  ifGetOk d key setString = Ok field → copied d key field.
Proof.
  intros H s Hs. rewrite (ifGetOk_set _ _ _ _ Hs) in H.
  cbn in H. by injection H as <-.
Qed.

Lemma ifGetOk_string_not_empty d key field :
  ifGetOk d key setString = Ok field → field ≠ Some "".
Proof.
  unfold ifGetOk, GetOk.
  destruct (rd_values d !! key) as [v|]; [|by intros [= <-]].
  rewrite isZero_normalizeValue.
  destruct (isZero v) eqn:Hz; cbn; [by intros [= <-]|].
  destruct v; cbn; try discriminate. intros [= <-] [= ->]. done.
Qed.

Lemma ifGetOk_bool_not_false d key field :
  ifGetOk d key setBool = Ok field → field ≠ Some false.
Proof.
  unfold ifGetOk, GetOk.
  destruct (rd_values d !! key) as [v|]; [|by intros [= <-]].
  rewrite isZero_normalizeValue.
  destruct (isZero v) eqn:Hz; cbn; [by intros [= <-]|].
  destruct v; cbn; try discriminate. intros [= <-] [= ->]. done.
Qed.

(** What [expandDocumentParameters] returns binds every key of the map. *)
Lemma expandDocumentParameters_Ok_lookup (m : gmap string iface) p k v :
  expandDocumentParameters m = Ok p → m !! k = Some v → is_Some (p !! k).
Proof.
  intros Hp Hk. unfold expandDocumentParameters in Hp.
  destruct (decide (Forall (λ kv, isString kv.2 = true) (map_to_list m)))
    as [Hall|Hex].
  - destruct (expandDocumentParameters_loop_lookup (map_to_list m) ∅)
      as (r & Hr & Hin & _).
    + apply NoDup_fst_map_to_list.
    + intros k' v' Hkv. rewrite Forall_forall in Hall.
      by apply isString_spec, (Hall (k', v')).
    + rewrite Hr in Hp. injection Hp as <-.
      rewrite (Hin k v) by by apply elem_of_map_to_list.
      rewrite Forall_forall in Hall.
      specialize (Hall (k, v)). cbn in Hall.
      destruct v; cbn; try (by eauto);
        exfalso; (assert (false = true) as [=]);
        apply Hall; by apply elem_of_map_to_list.
  - apply not_Forall_Exists in Hex; [|apply _].
    apply Exists_exists in Hex as ([k' v'] & Hin & Hv). cbn in Hv.
    rewrite expandDocumentParameters_loop_non_string in Hp; [done|].
    exists k', v'. split; [done|]. by destruct (isString v').
Qed.

Lemma ifGetOk_parameters_not_empty d field :
  ifGetOk d "parameters"
    (λ v, m ← assertMap v; p ← expandDocumentParameters m; Ok (Some p))
  = Ok field →
  field ≠ Some ∅.
Proof.
  unfold ifGetOk, GetOk.
  destruct (rd_values d !! "parameters") as [v|]; [|by intros [= <-]].
  rewrite isZero_normalizeValue.
  destruct (isZero v) eqn:Hz; cbn; [by intros [= <-]|].
  destruct v as [| | | | |m]; cbn; try discriminate.
  intros H. apply result_bind_Ok in H as (p & Hp & [= <-]).
  intros [= ->]. cbn in Hz. apply bool_decide_eq_false in Hz.
  destruct (map_choose m) as (k & v & Hk); [by intros ->|].
  destruct (expandDocumentParameters_Ok_lookup m ∅ k v Hp Hk) as [? Hl].
  by rewrite lookup_empty in Hl.
Qed.

Lemma ifGetOk_parameters_copied d field m :
  ifGetOk d "parameters"
    (λ v, m ← assertMap v; p ← expandDocumentParameters m; Ok (Some p))
  = Ok field →
  GetOk d "parameters" = (IMap m, true) →
  expandDocumentParameters m = Ok (default ∅ field) ∧ is_Some field.
Proof.
  intros H Hm. rewrite (ifGetOk_set _ _ _ _ Hm) in H.
  cbn in H. apply result_bind_Ok in H as (p & Hp & [= <-]). eauto.
Qed.

Lemma ifGetOk_location_copied d field l :
  ifGetOk d "output_location"
    (λ v, l ← assertSlice v; expandAssociationOutputLocation l) = Ok field →
  GetOk d "output_location" = (ISlice l, true) →
  expandAssociationOutputLocation l = Ok field.
Proof. intros H Hl. by rewrite (ifGetOk_set _ _ _ _ Hl) in H. Qed.

Section more_requests.

Variable expandTargets : option (list iface) → result (option (list Target)).

(** X8: every field the handler reads as set reaches the request it belongs
    to.  Create: the name, a true cron flag, the association name, the
    instance id, the document version, the schedule expression, the
    compliance severity, the two thresholds, the automation parameter name,
    the expanded parameters, the expanded targets and the expanded output
    location.  Update: the identifier and the same fields but the instance
    id, which the update request does not have. *)
Theorem present_fields_are_copied (d : ResourceData) :
  (∀ input, resourceAssociationCreate_input expandTargets d = Ok input →
            createCopiesPresent expandTargets d input)
  ∧ (∀ input, resourceAssociationUpdate_input expandTargets d = Ok input →
              updateCopiesPresent expandTargets d input).
Proof.
  split.
  - intros input H. unfold resourceAssociationCreate_input in H.
    apply result_bind_Ok in H as (name & Hname & H). peel_binds H.
    injection H as <-. unfold createCopiesPresent.
    cbn -[expandAssociationOutputLocation expandDocumentParameters].
    split.
    { intros s Hs. rewrite Hs in Hname. cbn in Hname.
      by injection Hname as <-. }
    split.
    { intros Hb. rewrite (ifGetOk_set _ _ _ _ Hb) in Hfield.
      cbn in Hfield. by injection Hfield as <-. }
    repeat (split; [by apply ifGetOk_copied|]).
    split; [intros m; by apply ifGetOk_parameters_copied|].
    split; [|intros l; by apply ifGetOk_location_copied].
    intros l Hl. by rewrite (ifGetOk_set _ _ _ _ Hl) in Hfield5.
  - intros input H. unfold resourceAssociationUpdate_input in H.
    peel_binds H.
    injection H as <-. unfold updateCopiesPresent.
    cbn -[expandAssociationOutputLocation expandDocumentParameters].
    split; [done|]. split.
    { intros Hb. rewrite (ifGetOk_set _ _ _ _ Hb) in Hfield.
      cbn in Hfield. by injection Hfield as <-. }
    repeat (split; [by apply ifGetOk_copied|]).
    split; [intros m; by apply ifGetOk_parameters_copied|].
    split; [|intros l; by apply ifGetOk_location_copied].
    intros l Hl. rewrite (ifGetOk_set _ _ _ _ Hl) in Hfield4.
    by rewrite (GetOk_Get _ _ _ _ Hl) in Hfield4.
Qed.

(** X9: no request carries a zero value at top level: the cron flag is never
    sent as false, no optional string attribute is sent empty and the
    parameters are never sent as an empty map, so a field cannot be reset by
    configuring its zero value. *)
Theorem requests_send_no_zero (d : ResourceData) :
  (∀ input, resourceAssociationCreate_input expandTargets d = Ok input →
            createSendsNoZero input)
  ∧ (∀ input, resourceAssociationUpdate_input expandTargets d = Ok input →
              updateSendsNoZero input).
Proof.
  split.
  - intros input H. unfold resourceAssociationCreate_input in H.
    apply result_bind_Ok in H as (name & Hname & H). peel_binds H.
    injection H as <-. unfold createSendsNoZero. cbn.
    repeat split;
      eauto using ifGetOk_string_not_empty, ifGetOk_bool_not_false,
        ifGetOk_parameters_not_empty.
  - intros input H. unfold resourceAssociationUpdate_input in H.
    peel_binds H.
    injection H as <-. unfold updateSendsNoZero. cbn.
    repeat split;
      eauto using ifGetOk_string_not_empty, ifGetOk_bool_not_false,
        ifGetOk_parameters_not_empty.
Qed.

End more_requests.

Lemma present_fields_are_copied_witness :
  resourceAssociationCreate_input sampleExpandTargetsByKey sampleTargeted
  = Ok sampleTargetedCreateInput
  ∧ createCopiesPresent sampleExpandTargetsByKey sampleTargeted
      sampleTargetedCreateInput
  ∧ resourceAssociationUpdate_input sampleExpandTargetsByKey sampleTargeted
    = Ok sampleTargetedUpdateInput
  ∧ updateCopiesPresent sampleExpandTargetsByKey sampleTargeted
      sampleTargetedUpdateInput.
Proof.
  pose proof (present_fields_are_copied sampleExpandTargetsByKey
                sampleTargeted) as [Hcreate Hupdate].
  split; [by vm_compute|]. split; [apply Hcreate; by vm_compute|].
  split; [by vm_compute|]. apply Hupdate. by vm_compute.
Defined.

Lemma requests_send_no_zero_witness :
  resourceAssociationCreate_input sampleExpandTargets sampleConfigured
  = Ok sampleConfiguredCreateInput
  ∧ createSendsNoZero sampleConfiguredCreateInput
  ∧ resourceAssociationUpdate_input sampleExpandTargets sampleConfigured
    = Ok sampleConfiguredUpdateInput
  ∧ updateSendsNoZero sampleConfiguredUpdateInput.
Proof.
  pose proof (requests_send_no_zero sampleExpandTargets sampleConfigured)
    as [Hcreate Hupdate].
  split; [by vm_compute|]. split; [apply Hcreate; by vm_compute|].
  split; [by vm_compute|]. apply Hupdate. by vm_compute.
Defined.

(** ** Read *)

Lemma Set_scalar d key t (value : option iface) :
  Schema key = Some t →
  (∀ v, value = Some v → hasType t v = true) →
  rd_values (Set_ d key value).1 !! key = normalizeValue key <$> value.
Proof.
  intros Hk Ht. unfold Set_. destruct value as [v|]; cbn.
  - rewrite Hk, (Ht v eq_refl). cbn. apply lookup_insert_eq.
  - apply lookup_delete_eq.
Qed.

Lemma Set_scalar_string d key (value : option string) :
  Schema key = Some TypeString →
  rd_values (Set_ d key (IString <$> value)).1 !! key = IString <$> value.
Proof.
  intros Hk. rewrite (Set_scalar _ _ TypeString); [by destruct value|done|].
  destruct value; cbn; [|done]. by intros v [= <-].
Qed.

Lemma Set_scalar_bool d key (value : option bool) :
  Schema key = Some TypeBool →
  rd_values (Set_ d key (IBool <$> value)).1 !! key = IBool <$> value.
Proof.
  intros Hk. rewrite (Set_scalar _ _ TypeBool); [by destruct value|done|].
  destruct value; cbn; [|done]. by intros v [= <-].
Qed.


Ltac lookup_scalar_after_Sets :=
  repeat first [ progress cbn [rd_values st_d snd]
               | rewrite Set_other by done
               | rewrite lookup_insert_ne by done ];
  first [ by apply Set_scalar_string | by apply Set_scalar_bool ].

Ltac id_after_Sets :=
  repeat first [ progress cbn [rd_id st_d snd Id] | rewrite Set_id ]; done.




Section more_lifecycle.

Variable tfresource_NotFound : error → bool.
Variable FindAssociationById : SSM → string → error + AssociationDescription.
Variable waitAssociationSuccess :
  SSM → string → Z → error + AssociationDescription.
Variable expandTargets : option (list iface) → result (option (list Target)).
Variable flattenParameters :
  option (gmap string (list (option string))) → iface.
Variable flattenTargets : option (list Target) → iface.

Local Abbreviation Read :=
  (resourceAssociationRead tfresource_NotFound FindAssociationById
     flattenParameters flattenTargets).
Local Abbreviation Create :=
  (resourceAssociationCreate tfresource_NotFound FindAssociationById
     waitAssociationSuccess expandTargets flattenParameters flattenTargets).
Local Abbreviation Update :=
  (resourceAssociationUpdate tfresource_NotFound FindAssociationById
     expandTargets flattenParameters flattenTargets).

(** X10: when the association is found, the read copies every scalar
    attribute of the description into the resource data, unsets the fields
    whose attribute is nil, keeps the identifier and has issued the one
    lookup, whether or not a later collection field is refused. *)
Theorem read_found_mirrors_scalars (meta : AWSClient) (d : ResourceData)
    (association : AssociationDescription) :
  FindAssociationById (SSMConn meta) (Id d) = inr association →
  ∃ diags st',
    Read meta (start d) = (Ok diags, st')
    ∧ mirrorsScalars association (st_d st')
    ∧ Id (st_d st') = Id d
    ∧ st_calls st' = [CallFindAssociationById (Id d)].
Proof.
  intros Hfind. unfold resourceAssociationRead. run_handler. rewrite Hfind.
  unfold d_Set. cbn.
  repeat destruct_Set_error;
    (eexists _, _; split; [reflexivity|]; split;
     [unfold mirrorsScalars; repeat split; lookup_scalar_after_Sets
     |split; [id_after_Sets|done]]).
Qed.


(** X12: a lookup failure that is not a not-found, or any lookup failure
    while the resource is new, is reported as the one error
    "reading SSM Association (id): text" and leaves the resource data as it
    was. *)
Theorem read_lookup_error_reported (meta : AWSClient) (d : ResourceData)
    (err : error) :
  FindAssociationById (SSMConn meta) (Id d) = inl err →
  IsNewResource d = true ∨ tfresource_NotFound err = false →
  Read meta (start d)
  = (Ok [errorDiagnostic ("reading SSM Association (" ++ Id d ++ "): "
                          ++ err_Error err)],
     {| st_d := d; st_calls := [CallFindAssociationById (Id d)] |}).
Proof.
  intros Hfind Hcase. unfold resourceAssociationRead. run_handler.
  rewrite Hfind.
  assert (negb (IsNewResource d) && tfresource_NotFound err = false) as ->.
  { destruct Hcase as [->| ->]; [done|]. by rewrite andb_false_r. }
  by destruct d.
Qed.

(** X13: a read never panics and issues exactly one remote call, the lookup
    of the current identifier; it leaves the identifier alone unless the
    lookup reports not-found for a resource that is not new, the one case
    in which it clears it. *)
Theorem read_one_lookup (meta : AWSClient) (st : St) :
  ∃ diags d',
    Read meta st
    = (Ok diags,
       {| st_d := d';
          st_calls := (st_calls st
                       ++ [CallFindAssociationById (Id (st_d st))])%list |})
    ∧ (Id d' = Id (st_d st)
       ∨ (Id d' = ""
          ∧ IsNewResource (st_d st) = false
          ∧ ∃ err, FindAssociationById (SSMConn meta) (Id (st_d st)) = inl err
                   ∧ tfresource_NotFound err = true)).
Proof.
  unfold resourceAssociationRead. run_handler.
  destruct (FindAssociationById _ _) as [err|association] eqn:Hfind.
  - destruct (IsNewResource (st_d st)) eqn:Hnew; cbn.
    + eexists _, _. split; [reflexivity|]. by left.
    + destruct (tfresource_NotFound err) eqn:Hnf; cbn.
      * eexists _, _. split; [reflexivity|]. right. eauto.
      * eexists _, _. split; [reflexivity|]. by left.
  - unfold d_Set. cbn.
    repeat destruct_Set_error;
      (eexists _, _; split; [reflexivity|]; left; id_after_Sets).
Qed.

(** ** Create *)

(** Past the remote create and the optional wait, a create is the read of
    the resource under its new identifier. *)
Lemma create_continues_with_read (meta : AWSClient) (d : ResourceData)
    (input : CreateAssociationInput) (resp : CreateAssociationOutput)
    (description : AssociationDescription) :
  resourceAssociationCreate_input expandTargets d = Ok input →
  CreateAssociationWithContext (SSMConn meta) input = inr resp →
  cao_AssociationDescription resp = Some description →
  (rd_values d !! "wait_for_success_timeout_seconds" = None
   ∨ ∃ n, rd_values d !! "wait_for_success_timeout_seconds" = Some (IInt n)
          ∧ (n ≠ 0%Z →
             ∃ found,
               waitAssociationSuccess (SSMConn meta)
                 (aws_StringValue (ad_AssociationId description))
                 (secondsDuration n) = inr found)) →
  Create meta (start d)
  = Read meta
      {| st_d := SetId d (aws_StringValue (ad_AssociationId description));
         st_calls :=
           (CallCreateAssociation input
            :: pollCalls d (aws_StringValue (ad_AssociationId description)))
      |}.
Proof.
  intros Hin Hresp Hdesc Hwait.
  unfold resourceAssociationCreate, pollCalls. run_handler.
  rewrite Hin. cbn. rewrite Hresp, Hdesc. cbn. unfold GetOk. cbn.
  destruct Hwait as [->|(n & -> & Hfound)]; cbn.
  - by destruct (Read meta _) as [[diags|p] st'].
  - destruct (decide (n = 0%Z)) as [->|Hn]; cbn.
    + rewrite ?bool_decide_eq_true_2 by done. cbn.
      by destruct (Read meta _) as [[diags|p] st'].
    + rewrite bool_decide_eq_false_2 by done. cbn.
      destruct (Hfound Hn) as [found ->]. cbn.
      by destruct (Read meta _) as [[diags|p] st'].
Qed.

(** X14: once the remote create has answered with a description and the
    wait, if one is configured, has succeeded, the create is exactly the
    read of the resource under the new identifier, issued after the create
    call and the poll: it reports what that read reports. *)
Theorem create_is_read_under_new_id (meta : AWSClient) (d : ResourceData)
    (input : CreateAssociationInput) (resp : CreateAssociationOutput)
    (description : AssociationDescription) :
  resourceAssociationCreate_input expandTargets d = Ok input →
  CreateAssociationWithContext (SSMConn meta) input = inr resp →
  cao_AssociationDescription resp = Some description →
  (rd_values d !! "wait_for_success_timeout_seconds" = None
   ∨ ∃ n, rd_values d !! "wait_for_success_timeout_seconds" = Some (IInt n)
          ∧ (n ≠ 0%Z →
             ∃ found,
               waitAssociationSuccess (SSMConn meta)
                 (aws_StringValue (ad_AssociationId description))
                 (secondsDuration n) = inr found)) →
  Create meta (start d)
  = Read meta
      {| st_d := SetId d (aws_StringValue (ad_AssociationId description));
         st_calls :=
           (CallCreateAssociation input
            :: pollCalls d (aws_StringValue (ad_AssociationId description)))
      |}.
Proof.
  intros Hin Hresp Hdesc Hwait.
  unfold resourceAssociationCreate, pollCalls. run_handler.
  rewrite Hin. cbn. rewrite Hresp, Hdesc. cbn. unfold GetOk. cbn.
  destruct Hwait as [->|(n & -> & Hfound)]; cbn.
  - by destruct (Read meta _) as [[diags|p] st'].
  - destruct (decide (n = 0%Z)) as [->|Hn]; cbn.
    + rewrite ?bool_decide_eq_true_2 by done. cbn.
      by destruct (Read meta _) as [[diags|p] st'].
    + rewrite bool_decide_eq_false_2 by done. cbn.
      destruct (Hfound Hn) as [found ->]. cbn.
      by destruct (Read meta _) as [[diags|p] st'].
Qed.

(** X15: when the read-back after a successful remote create fails for a
    resource marked new, whether no wait is configured, the timeout is zero
    or the wait has succeeded, the create reports that lookup error after
    the create call and the poll, and the resource data keeps the new
    identifier. *)
Theorem create_read_back_failure (meta : AWSClient) (d : ResourceData)
    (input : CreateAssociationInput) (resp : CreateAssociationOutput)
    (description : AssociationDescription) (err : error) :
  IsNewResource d = true →
  resourceAssociationCreate_input expandTargets d = Ok input →
  CreateAssociationWithContext (SSMConn meta) input = inr resp →
  cao_AssociationDescription resp = Some description →
  (rd_values d !! "wait_for_success_timeout_seconds" = None
   ∨ ∃ n, rd_values d !! "wait_for_success_timeout_seconds" = Some (IInt n)
          ∧ (n ≠ 0%Z →
             ∃ found,
               waitAssociationSuccess (SSMConn meta)
                 (aws_StringValue (ad_AssociationId description))
                 (secondsDuration n) = inr found)) →
  FindAssociationById (SSMConn meta)
    (aws_StringValue (ad_AssociationId description)) = inl err →
  Create meta (start d)
  = (Ok [errorDiagnostic
           ("reading SSM Association ("
            ++ aws_StringValue (ad_AssociationId description) ++ "): "
            ++ err_Error err)],
     {| st_d := SetId d (aws_StringValue (ad_AssociationId description));
        st_calls :=
          (CallCreateAssociation input
           :: pollCalls d (aws_StringValue (ad_AssociationId description))
           ++ [CallFindAssociationById
                 (aws_StringValue (ad_AssociationId description))])%list |}).
Proof.
  intros Hnew Hin Hresp Hdesc Hwait Hfind.
  rewrite (create_continues_with_read meta d input resp description)
    by auto.
  unfold resourceAssociationRead. run_handler. rewrite Hfind.
  unfold IsNewResource in Hnew. by rewrite Hnew.
Qed.

(** X16: a create whose request cannot be built panics before any remote
    call; a create whose remote call fails reports
    "creating SSM association: text", issues nothing else and leaves the
    resource data, identifier included, as it was. *)
Theorem create_remote_failure (meta : AWSClient) (d : ResourceData) :
  (∀ p, resourceAssociationCreate_input expandTargets d = Panic p →
        Create meta (start d) = (Panic p, start d))
  ∧ (∀ input err,
       resourceAssociationCreate_input expandTargets d = Ok input →
       CreateAssociationWithContext (SSMConn meta) input = inl err →
       Create meta (start d)
       = (Ok [errorDiagnostic
                ("creating SSM association: " ++ err_Error err)],
          {| st_d := d; st_calls := [CallCreateAssociation input] |})).
Proof.
  split.
  - intros p Hin. unfold resourceAssociationCreate. run_handler.
    by rewrite Hin.
  - intros input err Hin Herr. unfold resourceAssociationCreate. run_handler.
    rewrite Hin. cbn. by rewrite Herr.
Qed.

(** X17: when the wait for success fails, the create reports
    "waiting for SSM Association (id) to be Success: text" and never reads
    the association back; the resource data already carries the new
    identifier. *)
Theorem create_wait_failure (meta : AWSClient) (d : ResourceData)
    (input : CreateAssociationInput) (resp : CreateAssociationOutput)
    (description : AssociationDescription) (n : Z) (err : error) :
  resourceAssociationCreate_input expandTargets d = Ok input →
  CreateAssociationWithContext (SSMConn meta) input = inr resp →
  cao_AssociationDescription resp = Some description →
  rd_values d !! "wait_for_success_timeout_seconds" = Some (IInt n) →
  n ≠ 0%Z →
  waitAssociationSuccess (SSMConn meta)
    (aws_StringValue (ad_AssociationId description)) (secondsDuration n)
  = inl err →
  Create meta (start d)
  = (Ok [errorDiagnostic
           ("waiting for SSM Association ("
            ++ aws_StringValue (ad_AssociationId description)
            ++ ") to be Success: " ++ err_Error err)],
     {| st_d := SetId d (aws_StringValue (ad_AssociationId description));
        st_calls :=
          [CallCreateAssociation input;
           CallWaitAssociationSuccess
             (aws_StringValue (ad_AssociationId description))
             (secondsDuration n)] |}).
Proof.
  intros Hin Hresp Hdesc Hcfg Hn Hwait.
  unfold resourceAssociationCreate. run_handler.
  rewrite Hin. cbn. rewrite Hresp, Hdesc. cbn. unfold GetOk. cbn.
  rewrite Hcfg. cbn. rewrite bool_decide_eq_false_2 by done. cbn.
  by rewrite Hwait.
Qed.

(** ** Update *)

(** X18: an update whose request cannot be built panics before any remote
    call; an update whose remote call fails reports
    "updating SSM association: text", does not read the association back
    and leaves the resource data as it was; an update whose remote call
    succeeds is exactly the read that follows it. *)
Theorem update_outcomes (meta : AWSClient) (d : ResourceData) :
  (∀ p, resourceAssociationUpdate_input expandTargets d = Panic p →
        Update meta (start d) = (Panic p, start d))
  ∧ (∀ input err,
       resourceAssociationUpdate_input expandTargets d = Ok input →
       UpdateAssociationWithContext (SSMConn meta) input = Some err →
       Update meta (start d)
       = (Ok [errorDiagnostic
                ("updating SSM association: " ++ err_Error err)],
          {| st_d := d; st_calls := [CallUpdateAssociation input] |}))
  ∧ (∀ input,
       resourceAssociationUpdate_input expandTargets d = Ok input →
       UpdateAssociationWithContext (SSMConn meta) input = None →
       Update meta (start d)
       = Read meta {| st_d := d;
                      st_calls := [CallUpdateAssociation input] |}).
Proof.
  split; [|split].
  - intros p Hin. unfold resourceAssociationUpdate. run_handler.
    by rewrite Hin.
  - intros input err Hin Herr. unfold resourceAssociationUpdate. run_handler.
    rewrite Hin. cbn. by rewrite Herr.
  - intros input Hin Hok. unfold resourceAssociationUpdate. run_handler.
    rewrite Hin. cbn. rewrite Hok. cbn.
    by destruct (Read meta _) as [[diags|p] st'].
Qed.

(** X19: an update never waits for success, whatever
    [wait_for_success_timeout_seconds] is: it issues no call at all, or the
    update call alone, or the update call followed by the lookup of the
    resource's identifier. *)
Theorem update_never_polls (meta : AWSClient) (d : ResourceData) :
  st_calls (Update meta (start d)).2 = []
  ∨ ∃ input,
      resourceAssociationUpdate_input expandTargets d = Ok input
      ∧ (st_calls (Update meta (start d)).2 = [CallUpdateAssociation input]
         ∨ st_calls (Update meta (start d)).2
           = [CallUpdateAssociation input; CallFindAssociationById (Id d)]).
Proof.
  unfold resourceAssociationUpdate. run_handler.
  destruct (resourceAssociationUpdate_input _ _) as [input|p]; cbn;
    [|by left].
  right. exists input. split; [done|].
  destruct (UpdateAssociationWithContext _ _) as [err|]; cbn; [by left|].
  right.
  match goal with
  | |- context [Read meta ?st] =>
    destruct (read_outcome tfresource_NotFound FindAssociationById
                flattenParameters flattenTargets meta st)
      as (diags & d' & ->)
  end. done.
Qed.

(** ** Delete *)

(** X20: a delete never panics, never touches the resource data and issues
    exactly one remote call, the delete of the current identifier; it
    reports nothing when the remote delete succeeds or fails with a code
    containing AssociationDoesNotExist, and otherwise the one error
    "deleting SSM association: text". *)
Theorem delete_outcome (meta : AWSClient) (d : ResourceData) :
  resourceAssociationDelete meta (start d)
  = (Ok match DeleteAssociationWithContext (SSMConn meta)
                {| dai_AssociationId := Some (Id d) |} with
        | None => []
        | Some err =>
          if tfawserr_ErrCodeContains err "AssociationDoesNotExist" then []
          else [errorDiagnostic
                  ("deleting SSM association: " ++ err_Error err)]
        end,
     {| st_d := d;
        st_calls := [CallDeleteAssociation
                       {| dai_AssociationId := Some (Id d) |}] |}).
Proof.
  unfold resourceAssociationDelete. run_handler.
  destruct (DeleteAssociationWithContext _ _) as [err|]; cbn; [|done].
  unfold ssm_ErrCodeAssociationDoesNotExist.
  by destruct (tfawserr_ErrCodeContains _ _).
Qed.

(** ** Update followed by a vanished association *)

(** X23: when the remote update succeeds but the association is then
    reported not-found for a resource that is not new, the update reports
    nothing and clears the identifier: the resource silently leaves the
    state. *)
Theorem update_of_vanished_association (meta : AWSClient) (d : ResourceData)
    (input : UpdateAssociationInput) (err : error) :
  resourceAssociationUpdate_input expandTargets d = Ok input →
  UpdateAssociationWithContext (SSMConn meta) input = None →
  FindAssociationById (SSMConn meta) (Id d) = inl err →
  tfresource_NotFound err = true →
  IsNewResource d = false →
  Update meta (start d)
  = (Ok [], {| st_d := SetId d "";
               st_calls := [CallUpdateAssociation input;
                            CallFindAssociationById (Id d)] |}).
Proof.
  intros Hin Hok Hfind Hnf Hnew.
  unfold resourceAssociationUpdate. run_handler.
  rewrite Hin. cbn. rewrite Hok. cbn.
  unfold resourceAssociationRead. run_handler.
  by rewrite Hfind, Hnf, Hnew.
Qed.

End more_lifecycle.

(** ** The further handler properties on sample data *)

Lemma read_found_mirrors_scalars_witness :
  sampleFind (SSMConn (sampleMeta sampleConn)) (Id sampleKnown)
  = inr sampleAssociation
  ∧ ∃ diags st',
      sampleRead (sampleMeta sampleConn) (start sampleKnown) = (Ok diags, st')
      ∧ mirrorsScalars sampleAssociation (st_d st')
      ∧ Id (st_d st') = Id sampleKnown
      ∧ st_calls st' = [CallFindAssociationById (Id sampleKnown)].
Proof.
  split; [reflexivity|].
  apply (read_found_mirrors_scalars sampleNotFound sampleFind
           sampleFlattenParameters sampleFlattenTargets
           (sampleMeta sampleConn) sampleKnown sampleAssociation).
  reflexivity.
Defined.


Lemma read_lookup_error_reported_witness :
  sampleFind (SSMConn (sampleMeta sampleConn)) (Id (sampleNew None))
  = inl sampleNotFoundError
  ∧ sampleRead (sampleMeta sampleConn) (start (sampleNew None))
    = (Ok [errorDiagnostic
             ("reading SSM Association (" ++ Id (sampleNew None) ++ "): "
              ++ err_Error sampleNotFoundError)],
       {| st_d := sampleNew None;
          st_calls := [CallFindAssociationById (Id (sampleNew None))] |}).
Proof.
  split; [reflexivity|].
  apply (read_lookup_error_reported sampleNotFound sampleFind
           sampleFlattenParameters sampleFlattenTargets
           (sampleMeta sampleConn) (sampleNew None) sampleNotFoundError);
    [reflexivity|by left].
Defined.

Lemma create_is_read_under_new_id_witness :
  resourceAssociationCreate_input sampleExpandTargets (sampleNew (Some 30%Z))
  = Ok sampleCreateInput
  ∧ sampleCreate (sampleMeta sampleConn) (start (sampleNew (Some 30%Z)))
    = sampleRead (sampleMeta sampleConn)
        {| st_d := SetId (sampleNew (Some 30%Z))
                     (aws_StringValue (ad_AssociationId sampleAssociation));
           st_calls :=
             (CallCreateAssociation sampleCreateInput
              :: pollCalls (sampleNew (Some 30%Z))
                   (aws_StringValue (ad_AssociationId sampleAssociation))) |}.
Proof.
  split; [by vm_compute|].
  apply (create_is_read_under_new_id sampleNotFound sampleFind sampleWait
           sampleExpandTargets sampleFlattenParameters sampleFlattenTargets
           (sampleMeta sampleConn) (sampleNew (Some 30%Z)) sampleCreateInput
           {| cao_AssociationDescription := Some sampleAssociation |}
           sampleAssociation); try by vm_compute.
  right. exists 30%Z. split; [by vm_compute|]. intros _. by eexists.
Defined.

Lemma create_read_back_failure_witness :
  IsNewResource (sampleNew (Some 30%Z)) = true
  ∧ resourceAssociationCreate sampleNotFound sampleFindNothing sampleWait
      sampleExpandTargets sampleFlattenParameters sampleFlattenTargets
      (sampleMeta sampleConn) (start (sampleNew (Some 30%Z)))
    = (Ok [errorDiagnostic
             ("reading SSM Association ("
              ++ aws_StringValue (ad_AssociationId sampleAssociation) ++ "): "
              ++ err_Error sampleNotFoundError)],
       {| st_d := SetId (sampleNew (Some 30%Z))
                    (aws_StringValue (ad_AssociationId sampleAssociation));
          st_calls :=
            (CallCreateAssociation sampleCreateInput
             :: pollCalls (sampleNew (Some 30%Z))
                  (aws_StringValue (ad_AssociationId sampleAssociation))
             ++ [CallFindAssociationById
                   (aws_StringValue (ad_AssociationId sampleAssociation))])%list
       |}).
Proof.
  split; [reflexivity|].
  apply (create_read_back_failure sampleNotFound sampleFindNothing sampleWait
           sampleExpandTargets sampleFlattenParameters sampleFlattenTargets
           (sampleMeta sampleConn) (sampleNew (Some 30%Z)) sampleCreateInput
           {| cao_AssociationDescription := Some sampleAssociation |}
           sampleAssociation sampleNotFoundError); try by vm_compute.
  right. exists 30%Z. split; [by vm_compute|]. intros _. by eexists.
Defined.

(** The same without a configured wait and with a zero timeout: the create
    call is followed by the lookup alone. *)
Example create_read_back_failure_without_poll :
  st_calls (resourceAssociationCreate sampleNotFound sampleFindNothing
              sampleWait sampleExpandTargets sampleFlattenParameters
              sampleFlattenTargets (sampleMeta sampleConn)
              (start (sampleNew None))).2
  = [CallCreateAssociation sampleCreateInput;
     CallFindAssociationById "assoc-1"]
  ∧ resourceAssociationCreate sampleNotFound sampleFindNothing
      sampleWait sampleExpandTargets sampleFlattenParameters
      sampleFlattenTargets (sampleMeta sampleConn)
      (start (sampleNew (Some 0%Z)))
    = (Ok [errorDiagnostic
             "reading SSM Association (assoc-1): couldn't find resource"],
       {| st_d := SetId (sampleNew (Some 0%Z)) "assoc-1";
          st_calls := [CallCreateAssociation sampleCreateInput;
                       CallFindAssociationById "assoc-1"] |}).
Proof. split; vm_compute; reflexivity. Qed.

Lemma create_remote_failure_witness :
  resourceAssociationCreate_input sampleExpandTargets (sampleNew None)
  = Ok sampleCreateInput
  ∧ CreateAssociationWithContext (SSMConn (sampleMeta sampleFailingConn))
      sampleCreateInput = inl sampleThrottlingError
  ∧ sampleCreate (sampleMeta sampleFailingConn) (start (sampleNew None))
    = (Ok [errorDiagnostic
             ("creating SSM association: " ++ err_Error sampleThrottlingError)],
       {| st_d := sampleNew None;
          st_calls := [CallCreateAssociation sampleCreateInput] |})
  ∧ sampleCreate (sampleMeta sampleConn) (start sampleMistyped)
    = (Panic PanicTypeAssertion, start sampleMistyped).
Proof.
  split; [by vm_compute|]. split; [reflexivity|]. split.
  - apply (proj2 (create_remote_failure sampleNotFound sampleFind sampleWait
                    sampleExpandTargets sampleFlattenParameters
                    sampleFlattenTargets (sampleMeta sampleFailingConn)
                    (sampleNew None))); by vm_compute.
  - apply (proj1 (create_remote_failure sampleNotFound sampleFind sampleWait
                    sampleExpandTargets sampleFlattenParameters
                    sampleFlattenTargets (sampleMeta sampleConn)
                    sampleMistyped)); by vm_compute.
Defined.

Lemma create_wait_failure_witness :
  resourceAssociationCreate_input sampleExpandTargets (sampleNew (Some 30%Z))
  = Ok sampleCreateInput
  ∧ resourceAssociationCreate sampleNotFound sampleFind sampleWaitTimeout
      sampleExpandTargets sampleFlattenParameters sampleFlattenTargets
      (sampleMeta sampleConn) (start (sampleNew (Some 30%Z)))
    = (Ok [errorDiagnostic
             ("waiting for SSM Association ("
              ++ aws_StringValue (ad_AssociationId sampleAssociation)
              ++ ") to be Success: " ++ "timeout while waiting for state")],
       {| st_d := SetId (sampleNew (Some 30%Z))
                    (aws_StringValue (ad_AssociationId sampleAssociation));
          st_calls :=
            [CallCreateAssociation sampleCreateInput;
             CallWaitAssociationSuccess
               (aws_StringValue (ad_AssociationId sampleAssociation))
               (secondsDuration 30)] |}).
Proof.
  split; [by vm_compute|].
  apply (create_wait_failure sampleNotFound sampleFind sampleWaitTimeout
           sampleExpandTargets sampleFlattenParameters sampleFlattenTargets
           (sampleMeta sampleConn) (sampleNew (Some 30%Z)) sampleCreateInput
           {| cao_AssociationDescription := Some sampleAssociation |}
           sampleAssociation 30%Z
           {| err_Code := None;
              err_Error := "timeout while waiting for state" |});
    by vm_compute.
Defined.

Lemma update_outcomes_witness :
  resourceAssociationUpdate_input sampleExpandTargets sampleKnown
  = Ok sampleUpdateInput
  ∧ resourceAssociationUpdate sampleNotFound sampleFind sampleExpandTargets
      sampleFlattenParameters sampleFlattenTargets
      (sampleMeta sampleFailingConn) (start sampleKnown)
    = (Ok [errorDiagnostic
             ("updating SSM association: " ++ err_Error sampleThrottlingError)],
       {| st_d := sampleKnown;
          st_calls := [CallUpdateAssociation sampleUpdateInput] |})
  ∧ resourceAssociationUpdate sampleNotFound sampleFind sampleExpandTargets
      sampleFlattenParameters sampleFlattenTargets
      (sampleMeta sampleConn) (start sampleKnown)
    = sampleRead (sampleMeta sampleConn)
        {| st_d := sampleKnown;
           st_calls := [CallUpdateAssociation sampleUpdateInput] |}.
Proof.
  split; [by vm_compute|]. split.
  - apply (proj1 (proj2 (update_outcomes sampleNotFound sampleFind
                           sampleExpandTargets sampleFlattenParameters
                           sampleFlattenTargets (sampleMeta sampleFailingConn)
                           sampleKnown))); by vm_compute.
  - apply (proj2 (proj2 (update_outcomes sampleNotFound sampleFind
                           sampleExpandTargets sampleFlattenParameters
                           sampleFlattenTargets (sampleMeta sampleConn)
                           sampleKnown))); by vm_compute.
Defined.

(** An update of a resource configured with a wait timeout issues the update
    and the lookup, and no poll. *)
Example update_with_timeout_calls :
  st_calls (resourceAssociationUpdate sampleNotFound sampleFind
              sampleExpandTargets sampleFlattenParameters sampleFlattenTargets
              (sampleMeta sampleConn)
              (start {| rd_values :=
                          <["wait_for_success_timeout_seconds" := IInt 30]>
                            sampleValues;
                        rd_id := "assoc-1"; rd_isNew := false |})).2
  = [CallUpdateAssociation sampleUpdateInput;
     CallFindAssociationById "assoc-1"].
Proof. vm_compute. reflexivity. Qed.

(** ** Acceptance checks *)

Section acceptance_check_properties.

Variable tfresource_NotFound : error → bool.
Variable ModelPackageGroupPolicyByName :
  string → error + GetModelPackageGroupPolicyOutput.

Local Abbreviation Destroy_loop :=
  (testAccCheckAWSSagemakerModelPackageGroupPolicyDestroy_loop
     tfresource_NotFound ModelPackageGroupPolicyByName).
Local Abbreviation hard :=
  (hardLookupFailure tfresource_NotFound ModelPackageGroupPolicyByName).

Lemma Destroy_loop_cons name rs rest :
  Destroy_loop ((name, rs) :: rest) = None
  ↔ ¬ hard rs ∧ Destroy_loop rest = None.
Proof.
  cbn. unfold hardLookupFailure.
  destruct (String.eqb_spec (rs_Type rs)
              "aws_sagemaker_model_package_group_policy") as [Ht|Ht]; cbn.
  - destruct (ModelPackageGroupPolicyByName (rs_PrimaryID rs))
      as [err|resp] eqn:Hfind.
    + destruct (tfresource_NotFound err) eqn:Hnf.
      * split; [|by intros [_ ?]]. intros ->. split; [|done].
        intros (_ & err' & [= <-] & Hnf'). congruence.
      * split; [done|]. intros [Hno _]. destruct Hno. eauto.
    + split; [|by intros [_ ?]]. intros ->. split; [|done].
      intros (_ & err' & [=] & _).
  - split; [|by intros [_ ?]]. intros ->. split; [|done]. by intros [? _].
Qed.

Lemma Destroy_loop_None (resources : list (string * ResourceState)) :
  Destroy_loop resources = None ↔ Forall (λ kv, ¬ hard kv.2) resources.
Proof.
  induction resources as [|[name rs] rest IH]; [by split|].
  rewrite Destroy_loop_cons, Forall_cons, IH. done.
Qed.

Lemma Destroy_loop_Some (resources : list (string * ResourceState)) e :
  Destroy_loop resources = Some e →
  ∃ name rs err,
    (name, rs) ∈ resources
    ∧ hard rs
    ∧ ModelPackageGroupPolicyByName (rs_PrimaryID rs) = inl err
    ∧ e = fmt_Errorf_wrap
            ("error reading Sagemaker Model Package Group Policy ("
             ++ rs_PrimaryID rs ++ "): ") err.
Proof.
  induction resources as [|[name rs] rest IH]; [done|]. cbn.
  assert (Hrest : Destroy_loop rest = Some e →
            ∃ name0 rs0 err,
              (name0, rs0) ∈ (name, rs) :: rest
              ∧ hard rs0
              ∧ ModelPackageGroupPolicyByName (rs_PrimaryID rs0) = inl err
              ∧ e = fmt_Errorf_wrap
                      ("error reading Sagemaker Model Package Group Policy ("
                       ++ rs_PrimaryID rs0 ++ "): ") err).
  { intros (name0 & rs0 & err & Hin & ?)%IH. exists name0, rs0, err.
    split; [by right|done]. }
  destruct (String.eqb_spec (rs_Type rs)
              "aws_sagemaker_model_package_group_policy") as [Ht|Ht]; cbn;
    [|done].
  destruct (ModelPackageGroupPolicyByName (rs_PrimaryID rs))
    as [err|resp] eqn:Hfind; [|done].
  destruct (tfresource_NotFound err) eqn:Hnf; [done|].
  intros [= <-]. exists name, rs, err. split; [by left|].
  split; [|done]. split; [done|]. eauto.
Qed.

(** X21: in whatever order the resources are visited, the destroy check
    fails exactly when some policy resource of the state has a lookup that
    fails with an error other than not-found, and it then returns that
    error wrapped with the resource's identifier.  Resources of other types
    are skipped, and a policy that still exists does not fail the check. *)
Theorem destroy_check_fails_iff (s : gmap string ResourceState)
    (resources : list (string * ResourceState)) :
  resources ≡ₚ map_to_list s →
  (Destroy_loop resources = None
   ↔ ∀ name rs, s !! name = Some rs → ¬ hard rs)
  ∧ (∀ e, Destroy_loop resources = Some e →
          ∃ name rs err,
            s !! name = Some rs
            ∧ hard rs
            ∧ ModelPackageGroupPolicyByName (rs_PrimaryID rs) = inl err
            ∧ e = fmt_Errorf_wrap
                    ("error reading Sagemaker Model Package Group Policy ("
                     ++ rs_PrimaryID rs ++ "): ") err)
  ∧ ((∀ name rs, s !! name = Some rs →
        ∃ resp, ModelPackageGroupPolicyByName (rs_PrimaryID rs) = inr resp) →
     Destroy_loop resources = None).
Proof.
  intros Hperm.
  assert (Hiff : Destroy_loop resources = None
                 ↔ ∀ name rs, s !! name = Some rs → ¬ hard rs).
  { rewrite Destroy_loop_None, Forall_forall. split.
    - intros Hall name rs Hrs. apply (Hall (name, rs)).
      rewrite Hperm. by apply elem_of_map_to_list.
    - intros Hall [name rs] Hin. rewrite Hperm in Hin.
      apply elem_of_map_to_list in Hin. by apply (Hall name). }
  split; [exact Hiff|]. split.
  - intros e (name & rs & err & Hin & ?)%Destroy_loop_Some.
    exists name, rs, err. split; [|done].
    rewrite Hperm in Hin. by apply elem_of_map_to_list in Hin.
  - intros Hexist. apply Hiff. intros name rs Hrs (_ & err & Herr & _).
    destruct (Hexist name rs Hrs) as [resp Hresp]. congruence.
Qed.

(** X22: the exists check succeeds exactly when the state holds the named
    resource with a non-empty identifier and the lookup of that identifier
    succeeds, and it then stores the response; whenever it returns an error
    it leaves the output as it was. *)
Theorem exists_check_outcome (n : string)
    (mpg : GetModelPackageGroupPolicyOutput) (s : gmap string ResourceState) :
  ((testAccCheckAWSSagemakerModelPackageGroupPolicyExists
      ModelPackageGroupPolicyByName n mpg s).1 = None
   ↔ ∃ rs resp,
       s !! n = Some rs
       ∧ rs_PrimaryID rs ≠ ""
       ∧ ModelPackageGroupPolicyByName (rs_PrimaryID rs) = inr resp
       ∧ (testAccCheckAWSSagemakerModelPackageGroupPolicyExists
            ModelPackageGroupPolicyByName n mpg s).2 = resp)
  ∧ (∀ e, (testAccCheckAWSSagemakerModelPackageGroupPolicyExists
             ModelPackageGroupPolicyByName n mpg s).1 = Some e →
          (testAccCheckAWSSagemakerModelPackageGroupPolicyExists
             ModelPackageGroupPolicyByName n mpg s).2 = mpg).
Proof.
  unfold testAccCheckAWSSagemakerModelPackageGroupPolicyExists.
  destruct (s !! n) as [rs|] eqn:Hrs; cbn.
  2:{ split; [split; [done|intros (? & ? & [=] & _)]|done]. }
  destruct (String.eqb_spec (rs_PrimaryID rs) "") as [Hid|Hid]; cbn.
  { split; [split; [done|]|done].
    intros (rs' & resp & [= <-] & Hne & _). done. }
  destruct (ModelPackageGroupPolicyByName (rs_PrimaryID rs))
    as [err|resp] eqn:Hfind; cbn.
  - split; [split; [done|]|done].
    intros (rs' & resp & [= <-] & _ & Hresp & _). congruence.
  - split; [|done]. split; [|done]. intros _. by exists rs, resp.
Qed.

End acceptance_check_properties.

Lemma destroy_check_fails_iff_witness :
  [("aws_sagemaker_model_package_group.test",
    {| rs_Type := "aws_sagemaker_model_package_group";
       rs_PrimaryID := "group-1" |});
   ("aws_sagemaker_model_package_group_policy.test",
    {| rs_Type := "aws_sagemaker_model_package_group_policy";
       rs_PrimaryID := "group-1" |})]
  ≡ₚ map_to_list samplePolicyState
  ∧ testAccCheckAWSSagemakerModelPackageGroupPolicyDestroy_loop
      sampleNotFound samplePolicyFinder
      [("aws_sagemaker_model_package_group.test",
        {| rs_Type := "aws_sagemaker_model_package_group";
           rs_PrimaryID := "group-1" |});
       ("aws_sagemaker_model_package_group_policy.test",
        {| rs_Type := "aws_sagemaker_model_package_group_policy";
           rs_PrimaryID := "group-1" |})]
    = None.
Proof.
  assert (Hperm :
    [("aws_sagemaker_model_package_group.test",
      {| rs_Type := "aws_sagemaker_model_package_group";
         rs_PrimaryID := "group-1" |});
     ("aws_sagemaker_model_package_group_policy.test",
      {| rs_Type := "aws_sagemaker_model_package_group_policy";
         rs_PrimaryID := "group-1" |})]
    ≡ₚ map_to_list samplePolicyState).
  { unfold samplePolicyState.
    rewrite map_to_list_insert by (by vm_compute).
    rewrite map_to_list_insert by (by vm_compute).
    rewrite map_to_list_empty. apply perm_swap. }
  split; [exact Hperm|].
  apply (proj2 (proj2 (destroy_check_fails_iff sampleNotFound
                         samplePolicyFinder samplePolicyState _ Hperm))).
  intros name rs _. by eexists.
Defined.

Lemma update_of_vanished_association_witness :
  resourceAssociationUpdate_input sampleExpandTargets sampleGone
  = Ok sampleGoneUpdateInput
  ∧ resourceAssociationUpdate sampleNotFound sampleFind sampleExpandTargets
      sampleFlattenParameters sampleFlattenTargets
      (sampleMeta sampleConn) (start sampleGone)
    = (Ok [], {| st_d := SetId sampleGone "";
                 st_calls := [CallUpdateAssociation sampleGoneUpdateInput;
                              CallFindAssociationById (Id sampleGone)] |}).
Proof.
  split; [by vm_compute|].
  apply (update_of_vanished_association sampleNotFound sampleFind
           sampleExpandTargets sampleFlattenParameters sampleFlattenTargets
           (sampleMeta sampleConn) sampleGone sampleGoneUpdateInput
           sampleNotFoundError);
    by vm_compute.
Defined.

(** ** Validation patterns *)

Lemma append_empty (s1 s2 : string) : s1 ++ s2 = "" → s1 = "" ∧ s2 = "".
Proof. by destruct s1. Qed.

Lemma append_String (s1 s2 : string) c s :
  s1 ++ s2 = String c s →
  (s1 = "" ∧ s2 = String c s) ∨ ∃ s1', s1 = String c s1' ∧ s = s1' ++ s2.
Proof.
  destruct s1 as [|c1 s1']; cbn; [by left|].
  intros [= -> <-]. right. by exists s1'.
Qed.

Lemma nullable_Matches (r : regex) : nullable r = true → Matches r "".
Proof.
  induction r as [| | | |r1 IH1 r2 IH2|r1 IH1 r2 IH2|r IH]; cbn;
    try discriminate.
  - constructor.
  - intros [H1 H2]%andb_true_iff.
    change "" with ("" ++ "")%string. constructor; auto.
  - intros [H|H]%orb_true_iff; [apply MatchesAltL|apply MatchesAltR]; auto.
  - constructor.
Qed.

Lemma Matches_nullable (r : regex) (s : string) :
  Matches r s → s = "" → nullable r = true.
Proof.
  induction 1 as [| | |r1 r2 s1 s2 _ IH1 _ IH2|r1 r2 s _ IH|r1 r2 s _ IH
                  | |r s1 s2 _ _ _ _]; cbn; try done.
  - intros [-> ->]%append_empty. by rewrite IH1, IH2.
  - intros ->. by rewrite IH.
  - intros ->. rewrite IH by done. apply orb_true_r.
Qed.

Lemma deriv_Matches (c : ascii) (r : regex) :
  ∀ s, Matches (deriv c r) s → Matches r (String c s).
Proof.
  induction r as [| |c'|lo hi|r1 IH1 r2 IH2|r1 IH1 r2 IH2|r IH];
    intros s; cbn.
  - inversion 1.
  - inversion 1.
  - destruct (Ascii.eqb_spec c c') as [->|_]; inversion 1. constructor.
  - destruct (inRange lo hi c) eqn:Hc; inversion 1. by constructor.
  - destruct (nullable r1) eqn:Hn.
    + inversion 1 as [| | | |? ? ? Hl|? ? ? Hr| |]; subst.
      * inversion Hl as [| | |? ? s1 s2 H1 H2| | | |]; subst.
        change (String c (s1 ++ s2)) with (String c s1 ++ s2)%string.
        constructor; auto.
      * change (String c s) with ("" ++ String c s)%string.
        constructor; [by apply nullable_Matches|auto].
    + inversion 1 as [| | |? ? s1 s2 H1 H2| | | |]; subst.
      change (String c (s1 ++ s2)) with (String c s1 ++ s2)%string.
      constructor; auto.
  - inversion 1; subst; [apply MatchesAltL|apply MatchesAltR]; auto.
  - inversion 1 as [| | |? ? s1 s2 H1 H2| | | |]; subst.
    change (String c (s1 ++ s2)) with (String c s1 ++ s2)%string.
    constructor; auto.
Qed.

Lemma Matches_deriv (r : regex) (s0 : string) :
  Matches r s0 → ∀ c s, s0 = String c s → Matches (deriv c r) s.
Proof.
  induction 1 as [|c'|lo hi c' Hc|r1 r2 s1 s2 H1 IH1 H2 IH2
                  |r1 r2 s0 _ IH|r1 r2 s0 _ IH
                  |r|r s1 s2 H1 IH1 H2 IH2]; intros c s Heq; cbn.
  - discriminate.
  - injection Heq as <- <-. rewrite Ascii.eqb_refl. constructor.
  - injection Heq as <- <-. rewrite Hc. constructor.
  - apply append_String in Heq as [[-> ->]|(s1' & -> & ->)].
    + rewrite (Matches_nullable r1 "" H1 eq_refl).
      apply MatchesAltR. by apply IH2.
    + destruct (nullable r1); [apply MatchesAltL|];
        constructor; auto.
  - apply MatchesAltL. auto.
  - apply MatchesAltR. auto.
  - discriminate.
  - apply append_String in Heq as [[-> ->]|(s1' & -> & ->)].
    + by apply IH2.
    + constructor; auto.
Qed.

(** The derivative matcher decides the matching relation. *)
Lemma MatchString_spec (s : string) :
  ∀ r, MatchString r s = true ↔ Matches r s.
Proof.
  induction s as [|c s IH]; intros r; cbn.
  - split; [apply nullable_Matches|]. intros H. by eapply Matches_nullable.
  - rewrite IH. split; [apply deriv_Matches|].
    intros H. by eapply Matches_deriv.
Qed.

Lemma Matches_alt r1 r2 s :
  Matches (RAlt r1 r2) s ↔ Matches r1 s ∨ Matches r2 s.
Proof.
  split; [inversion 1; subst; auto|].
  intros [H|H]; [by apply MatchesAltL|by apply MatchesAltR].
Qed.

Lemma Matches_cat r1 r2 s :
  Matches (RCat r1 r2) s
  ↔ ∃ s1 s2, s = (s1 ++ s2)%string ∧ Matches r1 s1 ∧ Matches r2 s2.
Proof.
  split; [inversion 1; subst; eauto|].
  intros (s1 & s2 & -> & H1 & H2). by constructor.
Qed.

Lemma Matches_lit c s : Matches (RLit c) s ↔ s = String c "".
Proof. split; [by inversion 1|intros ->; constructor]. Qed.

Lemma Matches_range lo hi s :
  Matches (RRange lo hi) s ↔ ∃ c, s = String c "" ∧ inRange lo hi c = true.
Proof.
  split; [inversion 1; subst; eauto|].
  intros (c & -> & Hc). by constructor.
Qed.

Lemma allChars_app P s1 s2 :
  allChars P (s1 ++ s2) = allChars P s1 && allChars P s2.
Proof.
  induction s1 as [|c s1 IH]; simpl; [done|]. by rewrite IH, andb_assoc.
Qed.

Lemma Matches_star_range lo hi s :
  Matches (RStar (RRange lo hi)) s → allChars (inRange lo hi) s = true.
Proof.
  intros H. remember (RStar (RRange lo hi)) as r eqn:Hr.
  induction H as [| | | | | | |r s1 s2 H1 _ H2 IH2]; try discriminate.
  - done.
  - injection Hr as ->. rewrite allChars_app, IH2 by done.
    apply Matches_range in H1 as (c & -> & Hc). cbn. by rewrite Hc.
Qed.

Lemma digit09_split c :
  inRange "0" "9" c = true ↔ c = "0"%char ∨ inRange "1" "9" c = true.
Proof.
  unfold inRange. rewrite !andb_true_iff, !N.leb_le.
  change (N_of_ascii "0") with 48%N. change (N_of_ascii "1") with 49%N.
  change (N_of_ascii "9") with 57%N. split.
  - intros [Hlo Hhi]. destruct (decide (N_of_ascii c = 48%N)) as [Hc|Hc].
    + left. rewrite <- (ascii_N_embedding c), Hc. reflexivity.
    + right. lia.
  - intros [->|[Hlo Hhi]]; [by vm_compute|lia].
Qed.

Lemma append_percent_inj (b1 b2 : string) :
  (b1 ++ "%")%string = (b2 ++ "%")%string → b1 = b2.
Proof.
  revert b2. induction b1 as [|c b1 IH]; intros [|c2 b2]; cbn; try done.
  - intros [= <- H]. by destruct b2.
  - intros [= -> H]. by destruct b1.
  - intros [= -> H]. f_equal. by apply IH.
Qed.

Local Abbreviation hundredPercent :=
  (RCat (RLit "1"%char)
     (RCat (RLit "0"%char) (RCat (RLit "0"%char) percent))).

Lemma Matches_hundred s : Matches hundredPercent s ↔ s = "100%".
Proof.
  unfold percent. rewrite Matches_cat. split.
  - intros (s1 & s2 & -> & ->%Matches_lit & H).
    apply Matches_cat in H as (s3 & s4 & -> & ->%Matches_lit & H).
    apply Matches_cat in H as (s5 & s6 & -> & ->%Matches_lit & ->%Matches_lit).
    done.
  - intros ->. exists "1", "00%". split; [done|].
    split; [constructor|]. change "00%" with ("0" ++ "0%")%string.
    constructor; [constructor|]. change "0%" with ("0" ++ "%")%string.
    constructor; constructor.
Qed.

Lemma Matches_digit_percent lo hi s :
  Matches (RCat (RRange lo hi) percent) s
  ↔ ∃ c, s = String c "%" ∧ inRange lo hi c = true.
Proof.
  unfold percent. rewrite Matches_cat. split.
  - intros (s1 & s2 & -> & (c & -> & Hc)%Matches_range & ->%Matches_lit).
    eauto.
  - intros (c & -> & Hc). exists (String c ""), "%".
    split; [done|]. split; [by constructor|constructor].
Qed.

(** X24: [max_errors] accepts exactly what [max_concurrency] accepts, and in
    addition the two values [0] and [0%]. *)
Theorem max_errors_extends_max_concurrency (v : string) :
  validMaxErrors v = true
  ↔ validMaxConcurrency v = true ∨ v = "0" ∨ v = "0%".
Proof.
  unfold validMaxErrors, validMaxConcurrency.
  rewrite !MatchString_spec. unfold maxErrorsPattern, maxConcurrencyPattern.
  rewrite !Matches_alt, Matches_range. unfold digit19, digit09.
  rewrite !Matches_digit_percent. split.
  - intros [H|[(c & -> & Hc)|[H|[(c & -> & Hc)|H]]]]; auto.
    + right. left. apply andb_true_iff in Hc as [Hlo Hhi].
      apply N.leb_le in Hlo, Hhi.
      rewrite <- (ascii_N_embedding c).
      replace (N_of_ascii c) with 48%N; [done|].
      change (N_of_ascii "0") with 48%N in *. lia.
    + apply digit09_split in Hc as [->|Hc]; [auto|].
      left. right. right. left. eauto.
  - intros [[H|[H|[(c & -> & Hc)|H]]]|[->| ->]].
    + by left.
    + right. right. by left.
    + right. right. right. left. exists c. split; [done|].
      apply digit09_split. by right.
    + right. right. right. by right.
    + right. left. by exists "0"%char.
    + right. right. right. left. by exists "0"%char.
Qed.

(** X25: a value [max_concurrency] accepts starts with a digit from 1 to 9,
    so it is never empty, zero, signed or zero-padded; and when it ends in
    a percent sign, what stands before it is 100 or has at most two
    characters. *)
Theorem max_concurrency_shape (v : string) :
  validMaxConcurrency v = true →
  (∃ c rest, v = String c rest ∧ inRange "1" "9" c = true)
  ∧ (∀ body, v = (body ++ "%")%string →
             body = "100" ∨ (String.length body ≤ 2)%nat).
Proof.
  unfold validMaxConcurrency.
  rewrite MatchString_spec. unfold maxConcurrencyPattern.
  rewrite !Matches_alt, Matches_hundred. unfold digit19, digit09.
  rewrite Matches_digit_percent.
  intros [H|[H|[(c & -> & Hc)| ->]]].
  - apply Matches_cat in H
      as (s1 & s2 & -> & (c & -> & Hc)%Matches_range & Hds).
    split; [by exists c, s2|]. intros body Hbody.
    apply Matches_star_range in Hds.
    assert (allChars (inRange "0" "9") (body ++ "%") = true) as Hall.
    { rewrite <- Hbody, allChars_app, Hds, andb_true_r. simpl.
      rewrite andb_true_r. apply digit09_split. by right. }
    rewrite allChars_app, andb_true_iff in Hall. by destruct Hall as [_ ?].
  - apply Matches_cat in H
      as (s1 & s2 & -> & (c & -> & Hc)%Matches_range & H).
    apply Matches_digit_percent in H as (c2 & -> & Hc2).
    split; [by eexists c, _|]. intros body Hbody. right.
    change (String c "" ++ String c2 "%")%string
      with (String c (String c2 "") ++ "%")%string in Hbody.
    apply append_percent_inj in Hbody as <-. cbn. lia.
  - split; [by eexists c, _|]. intros body Hbody. right.
    change (String c "%") with (String c "" ++ "%")%string in Hbody.
    apply append_percent_inj in Hbody as <-. cbn. lia.
  - split; [by eexists _, _|]. intros body Hbody. left.
    change "100%" with ("100" ++ "%")%string in Hbody.
    by apply append_percent_inj in Hbody as <-.
Qed.

Lemma max_errors_extends_max_concurrency_witness :
  validMaxErrors "0%" = true
  ∧ validMaxConcurrency "0%" = false
  ∧ validMaxErrors "25%" = validMaxConcurrency "25%"
  ∧ (validMaxErrors "0%" = true
     ↔ validMaxConcurrency "0%" = true ∨ "0%" = "0" ∨ "0%" = "0%").
Proof.
  split; [reflexivity|]. split; [reflexivity|]. split; [reflexivity|].
  apply (max_errors_extends_max_concurrency "0%").
Defined.

Lemma max_concurrency_shape_witness :
  validMaxConcurrency "100%" = true
  ∧ (∃ c rest, "100%" = String c rest ∧ inRange "1" "9" c = true)
  ∧ (∀ body, "100%" = (body ++ "%")%string →
             body = "100" ∨ (String.length body ≤ 2)%nat).
Proof.
  split; [reflexivity|].
  apply (max_concurrency_shape "100%"). reflexivity.
Defined.

Example max_concurrency_samples :
  validMaxConcurrency "10" = true
  ∧ validMaxConcurrency "7%" = true
  ∧ validMaxConcurrency "0" = false
  ∧ validMaxConcurrency "010" = false
  ∧ validMaxConcurrency "101%" = false
  ∧ validMaxConcurrency "" = false
  ∧ validMaxErrors "0" = true.
Proof. repeat split; reflexivity. Qed.
